(** * pdf-reasoner: the embedding and retrieval store

    A shallow embedding of [src/embeddings.py] (class [Doc2VecEmbeddings])
    and [src/vector_store.py] (class [FAISSVectorStore]), with the
    properties of the store stated and proved over it.

    Conventions.
    - Python exceptions are values of [exn]; a method that only reads the
      object returns a [result]; a method that mutates the object or the
      files under [data/] is an action of the monad [M] over its state
      (for the store: a [World], the object together with the disk).  An
      exception leaves the state as it was at the point of the [raise].
    - gensim and faiss are libraries outside the repository; each is an
      interface, [Gensim] and [Faiss], that every statement is generic
      in.  Building the vocabulary, training and inference may raise;
      inference is deterministic, and whether it raises depends on the
      [Doc2Vec] object alone (it does on an object whose vocabulary was
      never built).  [faiss.IndexFlatL2] is the list of stored vectors;
      the distance the index computes, in [float32] arithmetic, and the
      row of labels a search returns are operations of the interface,
      bound by what faiss documents: the labels of a row are [-1] or
      positions of the index, they come in non-decreasing computed
      distance, and a row at least as long as the index holds every
      position.  Nothing is assumed on the order among positions at the
      same computed distance, nor on how the computed distance relates to
      the exact one.  [index.search] with [k = 0] and [index.add] of an
      empty batch raise, as the Python wrappers of faiss do; the vectors
      are taken to have the dimension of the index.
      Stand-ins ([Stub.gensim], [Stub.faiss]) are used for concrete runs.
    - Reading a file either yields a value of the expected type or
      raises; writing a file does not fail. *)

From stdpp Require Import gmap strings list sorting.

Local Open Scope Z_scope.

(** ** Exceptions and results *)

Inductive exn : Type :=
| ValueError (msg : string)
| KeyError (key : string)
| IndexError
| RuntimeError (msg : string)
| AssertionError.

Inductive result (A : Type) : Type :=
| Ok (a : A)
| Raise (e : exn).
Arguments Ok {A} a.
Arguments Raise {A} e.

#[global] Instance result_ret : MRet result := λ A a, Ok a.
#[global] Instance result_bind : MBind result := λ A B f r,
  match r with Ok a => f a | Raise e => Raise e end.

Definition is_Ok {A} (r : result A) : Prop := ∃ a, r = Ok a.

(** A persisted file is either readable as a value of its type or not
    (truncated, garbage, wrong format); [None] stands for a missing file. *)
Inductive file (A : Type) : Type :=
| Readable (a : A)
| Unreadable.
Arguments Readable {A} a.
Arguments Unreadable {A}.

(** ** Vectors and the flat L2 index *)

Definition Embedding : Type := list Z.


(** [faiss.IndexFlatL2]: the stored vectors in insertion order. *)
Definition IndexFlatL2 : Type := list Embedding.

(** [index.add(x)].  numpy gives the array of an empty list of vectors
    the shape [(0,)], and the wrapper's [n, d = x.shape] raises. *)
Definition index_add (ix : IndexFlatL2) (xs : list Embedding) : result IndexFlatL2 :=
  match xs with
  | [] => Raise (ValueError "not enough values to unpack (expected 2, got 1)")
  | _ => Ok (ix ++ xs)
  end.

(** Two labels of a row, the first before the second: when both are
    positions of the index, the vector at the first is computed to be at
    least as near to the query as the vector at the second. *)
Definition row_le (distance : Embedding → Embedding → Z) (ix : IndexFlatL2)
    (q : Embedding) (z1 z2 : Z) : Prop :=
  0 ≤ z1 → 0 ≤ z2 →
  ∀ e1 e2, ix !! Z.to_nat z1 = Some e1 → ix !! Z.to_nat z2 = Some e2 →
           distance q e1 ≤ distance q e2.

Class Faiss : Type := {
  (** the squared L2 distance as the index computes it, in [float32]
      arithmetic; the numbers stand for the [float32] values, in their
      order *)
  distance : Embedding → Embedding → Z;
  (** the row [I[0]] of [index.search(q, n)], for [n > 0] *)
  knn : IndexFlatL2 → Embedding → nat → list Z;
  (** a label is [-1] or a position of the index *)
  knn_valid : ∀ ix q n z, z ∈ knn ix q n → z = -1 ∨ 0 ≤ z < Z.of_nat (length ix);
  (** the labels come in non-decreasing computed distance *)
  knn_sorted : ∀ ix q n, StronglySorted (row_le distance ix q) (knn ix q n);
  (** a row at least as long as the index holds every position *)
  knn_cover : ∀ ix q n (p : nat),
    (length ix ≤ n)%nat → (p < length ix)%nat → Z.of_nat p ∈ knn ix q n;
}.



(** [index.search(q, n)], the label row [I[0]]; the wrapper starts with
    [assert k > 0]. *)
Definition index_search `{Faiss} (ix : IndexFlatL2) (q : Embedding) (n : nat)
  : result (list Z) :=
  if bool_decide (n = 0%nat) then Raise AssertionError else Ok (knn ix q n).

(** Python's [l[i]] on a list: negative indices count from the end. *)
Definition py_getitem {A} (l : list A) (i : Z) : option A :=
  if bool_decide (0 ≤ i) then l !! Z.to_nat i
  else if bool_decide (0 ≤ Z.of_nat (length l) + i)
       then l !! Z.to_nat (Z.of_nat (length l) + i)
       else None.

(** ** gensim *)

Record TaggedDocument : Type := mkTagged { words : list string; tags : list nat }.

(** The message of the [ValueError] of [embed] and [embed_batch]. *)
Definition not_trained_message : string := "Model not trained. Call fit() first.".

Class Gensim : Type := {
  (** a [Doc2Vec] object *)
  Doc2Vec : Type;
  (** [simple_preprocess(text, deacc=True)] *)
  simple_preprocess : string → list string;
  (** [Doc2Vec(vector_size=, min_count=, epochs=)] *)
  Doc2Vec_new : nat → nat → nat → Doc2Vec;
  (** [model.build_vocab(docs)] and [model.train(docs, total_examples=,
      epochs=)] update the object, or raise and leave it as it was *)
  build_vocab : Doc2Vec → list TaggedDocument → result Doc2Vec;
  train : Doc2Vec → list TaggedDocument → nat → nat → result Doc2Vec;
  corpus_count : Doc2Vec → nat;
  (** [model.infer_vector(words)], taken deterministic; it raises on an
      object whose vocabulary was never built *)
  infer_vector : Doc2Vec → list string → result Embedding;
  (** whether inference raises depends on the object, not on the words *)
  infer_vector_uniform : ∀ m ws ws',
    is_Ok (infer_vector m ws) → is_Ok (infer_vector m ws');
  (** gensim does not raise the [ValueError] of [embed] *)
  infer_vector_raises : ∀ m ws,
    infer_vector m ws ≠ Raise (ValueError not_trained_message);
}.

(** ** The disk: the three files under [data/] *)

(** The dictionary pickled into [vector_store_state.pkl]; a key can be
    absent from a file that was not written by [_save_state]. *)
Record PickledState : Type := mkPickled {
  pkl_metadata : option (gmap string (list (string * Z)));
  pkl_doc_ids : option (list string);
  pkl_filenames : option (gmap string string);
}.

Record Disk `{Gensim} : Type := mkDisk {
  doc2vec_model : option (file Doc2Vec);
  faiss_index : option (file IndexFlatL2);
  vector_store_state : option (file PickledState);
}.

Arguments mkDisk {_} _ _ _.

Definition empty_disk `{Gensim} : Disk := mkDisk None None None.

(** ** The monad of methods that mutate: state, and an exception or a value *)

Definition M (S A : Type) : Type := S → S * result A.

#[global] Instance M_ret {S} : MRet (M S) := λ A a s, (s, Ok a).
#[global] Instance M_bind {S} : MBind (M S) := λ A B f m s,
  match m s with
  | (s', Ok a) => f a s'
  | (s', Raise e) => (s', Raise e)
  end.

Definition get {S} : M S S := λ s, (s, Ok s).
Definition put {S} (s : S) : M S unit := λ _, (s, Ok ()).
Definition modify {S} (f : S → S) : M S unit := λ s, (f s, Ok ()).
Definition lift {S A} (r : result A) : M S A := λ s, (s, r).

(** [try: body except Exception: handler]. *)
Definition try_except {S A} (body : M S A) (handler : exn → M S A) : M S A :=
  λ s, match body s with
       | (s', Ok a) => (s', Ok a)
       | (s', Raise e) => handler e s'
       end.

(** Run an action on a component [T] of the state [S]. *)
Definition zoom {S T A} (proj : S → T) (inj : T → S → S) (m : M T A) : M S A :=
  λ s, let '(t, r) := m (proj s) in (inj t s, r).

(** ** embeddings.py *)

Module Embeddings.
Section WithGensim.
Context `{G : Gensim}.

Record Doc2VecEmbeddings : Type := mkEmbeddings {
  vector_size : nat;
  min_count : nat;
  epochs : nat;
  model : option Doc2Vec;
}.

Definition set_model (m : option Doc2Vec) (e : Doc2VecEmbeddings) : Doc2VecEmbeddings :=
  mkEmbeddings (vector_size e) (min_count e) (epochs e) m.

(** The object and the disk it saves its model to ([model_path] is the
    constant ['data/doc2vec_model'], the field [doc2vec_model] of [Disk]). *)
Definition Env : Type := Doc2VecEmbeddings * Disk.

Definition set_self_model (m : option Doc2Vec) : M Env unit :=
  modify (λ '(e, d), (set_model m e, d)).

Definition write_model_file (f : file Doc2Vec) : M Env unit :=
  modify (λ '(e, d), (e, mkDisk (Some f) (faiss_index d) (vector_store_state d))).

Definition ModelNotTrainedError : exn := ValueError not_trained_message.

Definition _preprocess_text (text : string) : list string :=
  simple_preprocess text.

Definition _save_model : M Env unit :=
  '(e, _) ← get;
  match model e with
  | Some m => write_model_file (Readable m)
  | None => mret ()
  end.

Definition _load_model : M Env unit :=
  '(_, d) ← get;
  match doc2vec_model d with
  | Some f =>
      try_except
        (m ← lift (match f with
                   | Readable m => Ok m
                   | Unreadable => Raise (RuntimeError "Doc2Vec.load")
                   end);
         set_self_model (Some m))
        (λ _, set_self_model None)
  | None => mret ()
  end.

(** The constructor, run over the disk [d]. *)
Definition __init__ (vector_size min_count epochs : nat) (d : Disk) : Env :=
  (_load_model (mkEmbeddings vector_size min_count epochs None, d)).1.

Definition fit (texts : list string) : M Env unit :=
  let processed_texts := _preprocess_text <$> texts in
  let tagged_docs := imap (λ i doc, mkTagged doc [i]) processed_texts in
  '(e, _) ← get;
  let m0 := Doc2Vec_new (vector_size e) (min_count e) (epochs e) in
  _ ← set_self_model (Some m0);
  m1 ← lift (build_vocab m0 tagged_docs);
  _ ← set_self_model (Some m1);
  m2 ← lift (train m1 tagged_docs (corpus_count m1) (epochs e));
  _ ← set_self_model (Some m2);
  _save_model.

Definition embed (e : Doc2VecEmbeddings) (text : string) : result Embedding :=
  match model e with
  | None => Raise ModelNotTrainedError
  | Some m =>
      let processed_text := _preprocess_text text in
      infer_vector m processed_text
  end.

Definition embed_batch (e : Doc2VecEmbeddings) (texts : list string)
  : result (list Embedding) :=
  match model e with
  | None => Raise ModelNotTrainedError
  | Some m =>
      let processed_texts := _preprocess_text <$> texts in
      mapM (infer_vector m) processed_texts
  end.

End WithGensim.
End Embeddings.

(** ** vector_store.py *)

Module VectorStore.
Import Embeddings.
Section WithLibraries.
Context `{G : Gensim} `{F : Faiss}.

Record FAISSVectorStore : Type := mkStore {
  embeddings : Doc2VecEmbeddings;
  dimension : nat;
  index : IndexFlatL2;
  metadata : gmap string (list (string * Z));
  doc_ids : list string;
  filenames : gmap string string;
}.

Definition set_embeddings (e : Doc2VecEmbeddings) (s : FAISSVectorStore) :=
  mkStore e (dimension s) (index s) (metadata s) (doc_ids s) (filenames s).
Definition set_index (ix : IndexFlatL2) (s : FAISSVectorStore) :=
  mkStore (embeddings s) (dimension s) ix (metadata s) (doc_ids s) (filenames s).
Definition set_metadata (m : gmap string (list (string * Z))) (s : FAISSVectorStore) :=
  mkStore (embeddings s) (dimension s) (index s) m (doc_ids s) (filenames s).
Definition set_doc_ids (l : list string) (s : FAISSVectorStore) :=
  mkStore (embeddings s) (dimension s) (index s) (metadata s) l (filenames s).
Definition set_filenames (f : gmap string string) (s : FAISSVectorStore) :=
  mkStore (embeddings s) (dimension s) (index s) (metadata s) (doc_ids s) f.

(** The process: the store object and the files under [data/]. *)
Record World : Type := mkWorld { store : FAISSVectorStore; disk : Disk }.

Definition modify_store (f : FAISSVectorStore → FAISSVectorStore) : M World unit :=
  modify (λ w, mkWorld (f (store w)) (disk w)).
Definition modify_disk (f : Disk → Disk) : M World unit :=
  modify (λ w, mkWorld (store w) (f (disk w))).

(** A method of [self.embeddings], called from the store. *)
Definition on_embeddings {A} (m : M Env A) : M World A :=
  zoom (λ w, (embeddings (store w), disk w))
       (λ '(e, d) w, mkWorld (set_embeddings e (store w)) d) m.

(** The constructor, run over the disk [d]: [Doc2VecEmbeddings(vector_size=300)]
    with its defaults [min_count=2], [epochs=20], an empty index and an
    empty registry. *)
Definition __init__ (d : Disk) : World :=
  let '(e, d') := Embeddings.__init__ 300 2 20 d in
  mkWorld (mkStore e 300 [] ∅ [] ∅) d'.

Definition exists_ (s : FAISSVectorStore) (doc_id : string) : bool :=
  bool_decide (is_Some (metadata s !! doc_id)).

Definition get_filename (s : FAISSVectorStore) (doc_id : string) : option string :=
  filenames s !! doc_id.

Fixpoint start_idx_from (ids : list string) (doc_id : string) (count : nat) : nat :=
  match ids with
  | [] => 0%nat
  | d_id :: rest =>
      if bool_decide (d_id = doc_id) then count
      else start_idx_from rest doc_id (count + 1)%nat
  end.

Definition _get_doc_start_idx (s : FAISSVectorStore) (doc_id : string) : nat :=
  start_idx_from (doc_ids s) doc_id 0%nat.

Definition _save_state : M World unit :=
  w ← get;
  let s := store w in
  _ ← modify_disk (λ d, mkDisk (doc2vec_model d) (Some (Readable (index s)))
                               (vector_store_state d));
  let state := mkPickled (Some (metadata s)) (Some (doc_ids s)) (Some (filenames s)) in
  modify_disk (λ d, mkDisk (doc2vec_model d) (faiss_index d) (Some (Readable state))).

Definition add_document (doc_id : string) (chunks_with_pages : list (string * Z))
    (filename : string) : M World unit :=
  _ ← modify_store (λ s, set_metadata (<[doc_id := chunks_with_pages]> (metadata s)) s);
  _ ← modify_store (λ s, set_filenames (<[doc_id := filename]> (filenames s)) s);
  let chunks := fst <$> chunks_with_pages in
  w ← get;
  _ ← match model (embeddings (store w)) with
      | None => on_embeddings (fit chunks)
      | Some _ => mret ()
      end;
  w ← get;
  embeddings ← lift (embed_batch (embeddings (store w)) chunks);
  let start_idx := length (doc_ids (store w)) in
  ix ← lift (index_add (index (store w)) embeddings);
  _ ← modify_store (set_index ix);
  _ ← modify_store (λ s, set_doc_ids (doc_ids s ++ replicate (length chunks) doc_id) s);
  _save_state.

(** The loop of [search] over the label row [I[0]], with its two
    accumulators; [break] returns the results collected so far. *)
Fixpoint search_loop (s : FAISSVectorStore) (doc_id : string) (k : Z) (I0 : list Z)
    (results : list (string * Z)) (seen_chunks : gset string)
  : result (list (string * Z)) :=
  match I0 with
  | [] => Ok results
  | idx :: rest =>
      if bool_decide (0 ≤ idx) && bool_decide (idx < Z.of_nat (length (doc_ids s))) then
        match doc_ids s !! Z.to_nat idx with
        | None => Raise IndexError
        | Some result_doc_id =>
            if bool_decide (result_doc_id = doc_id) then
              match metadata s !! doc_id with
              | None => Raise (KeyError doc_id)
              | Some entries =>
                  match py_getitem entries (idx - Z.of_nat (_get_doc_start_idx s doc_id)) with
                  | None => Raise IndexError
                  | Some (chunk, page) =>
                      if bool_decide (chunk ∉ seen_chunks) then
                        let results := results ++ [(chunk, page)] in
                        let seen_chunks := seen_chunks ∪ {[chunk]} in
                        if bool_decide (k ≤ Z.of_nat (length results)) then Ok results
                        else search_loop s doc_id k rest results seen_chunks
                      else search_loop s doc_id k rest results seen_chunks
                  end
              end
            else search_loop s doc_id k rest results seen_chunks
        end
      else search_loop s doc_id k rest results seen_chunks
  end.

Definition search (s : FAISSVectorStore) (query doc_id : string) (k : Z)
  : result (list (string * Z)) :=
  if negb (exists_ s doc_id) then Ok []
  else
    query_embedding ← embed (embeddings s) query;
    I0 ← index_search (index s) query_embedding (length (doc_ids s));
    search_loop s doc_id k I0 [] ∅.

Definition read_index (f : file IndexFlatL2) : result IndexFlatL2 :=
  match f with
  | Readable ix => Ok ix
  | Unreadable => Raise (RuntimeError "faiss.read_index")
  end.

Definition pickle_load (f : file PickledState) : result PickledState :=
  match f with
  | Readable state => Ok state
  | Unreadable => Raise (RuntimeError "pickle.load")
  end.

(** [state[key]] on the unpickled dictionary. *)
Definition state_getitem {A} (field : option A) (key : string) : result A :=
  match field with
  | Some v => Ok v
  | None => Raise (KeyError key)
  end.

Definition _load_state : M World bool :=
  try_except
    (w ← get;
     _ ← match faiss_index (disk w) with
         | Some f => ix ← lift (read_index f); modify_store (set_index ix)
         | None => mret ()
         end;
     _ ← match vector_store_state (disk w) with
         | Some f =>
             state ← lift (pickle_load f);
             m ← lift (state_getitem (pkl_metadata state) "metadata");
             _ ← modify_store (set_metadata m);
             l ← lift (state_getitem (pkl_doc_ids state) "doc_ids");
             _ ← modify_store (set_doc_ids l);
             f ← lift (state_getitem (pkl_filenames state) "filenames");
             modify_store (set_filenames f)
         | None => mret ()
         end;
     mret true)
    (λ e, mret false).

(** The module-level statements that end [vector_store.py]: construct the
    store, then try to load the persisted state. *)
Definition startup (d : Disk) : World := (_load_state (__init__ d)).1.

(** A request sequence: the calls of [add_document] a process serves, in
    order.  A call that raises leaves the world as the exception found it
    and the process goes on. *)
Definition call : Type := string * list (string * Z) * string.

Definition run_adds (calls : list call) (w : World) : World :=
  foldl (λ w '(doc_id, chunks, filename), (add_document doc_id chunks filename w).1)
        w calls.

(** The same, as long as every call returns. *)
Fixpoint add_all (calls : list call) : M World unit :=
  match calls with
  | [] => mret ()
  | (doc_id, chunks, filename) :: rest =>
      _ ← add_document doc_id chunks filename; add_all rest
  end.

End WithLibraries.
End VectorStore.

(** ** Deterministic stand-ins for gensim and faiss

    gensim: tokens are the space-separated words; the vocabulary keeps
    the words that occur at least [min_count] times in the corpus;
    training raises on an empty vocabulary; inference raises on an object
    that was not trained, and otherwise counts the words of the text in
    and out of the vocabulary.

    faiss: the distance is computed as a scalar [float32] loop does, each
    product and each partial sum rounded to 24 significant bits; a search
    sorts the positions by it. *)

Module Stub.

Record model : Type := mkModel {
  m_min_count : nat;
  vocab : list string;
  n_docs : nat;
  trained : bool;
}.

Definition occurrences (w : string) (corpus : list string) : nat :=
  length (filter (λ x, x = w) corpus).

Definition stub_build_vocab (m : model) (docs : list TaggedDocument) : result model :=
  let corpus := mjoin (words <$> docs) in
  let kept := filter (λ w, (m_min_count m ≤ occurrences w corpus)%nat) corpus in
  Ok (mkModel (m_min_count m) (remove_dups kept) (length docs) false).

Definition stub_train (m : model) (docs : list TaggedDocument) (total_examples epochs : nat)
  : result model :=
  match vocab m with
  | [] => Raise (RuntimeError "you must first build vocabulary before training the model")
  | _ => Ok (mkModel (m_min_count m) (vocab m) (n_docs m) true)
  end.

Definition stub_infer_vector (m : model) (ws : list string) : result Embedding :=
  if trained m then
    Ok [Z.of_nat (length (filter (λ w, w ∈ vocab m) ws));
        Z.of_nat (length (filter (λ w, w ∉ vocab m) ws))]
  else Raise (KeyError "sample_int").

Lemma stub_infer_vector_uniform m ws ws' :
  is_Ok (stub_infer_vector m ws) → is_Ok (stub_infer_vector m ws').
Proof. unfold stub_infer_vector. destruct (trained m); [by eexists|by intros [? ?]]. Qed.

Lemma stub_infer_vector_raises m ws :
  stub_infer_vector m ws ≠ Raise (ValueError not_trained_message).
Proof. unfold stub_infer_vector. by destruct (trained m). Qed.

#[export] Instance gensim : Gensim := {|
  Doc2Vec := model;
  simple_preprocess := String.words;
  Doc2Vec_new := λ _ min_count _, mkModel min_count [] 0 false;
  build_vocab := stub_build_vocab;
  train := stub_train;
  corpus_count := n_docs;
  infer_vector := stub_infer_vector;
  infer_vector_uniform := stub_infer_vector_uniform;
  infer_vector_raises := stub_infer_vector_raises;
|}.

(** Rounding a natural number to [float32]: 24 significant bits, to the
    nearest, ties to even. *)
Definition f32 (z : Z) : Z :=
  if bool_decide (z < 2 ^ 24) then z
  else
    let e := Z.log2 z - 23 in
    let q := Z.shiftr z e in
    let r := Z.land z (Z.ones e) in
    let half := 2 ^ (e - 1) in
    let q' := if bool_decide (r < half) then q
              else if bool_decide (half < r) then q + 1
              else if Z.even q then q else q + 1 in
    Z.shiftl q' e.

Definition stub_distance (q e : Embedding) : Z :=
  foldl (λ acc d, f32 (acc + f32 (d * d))) 0 (zip_with Z.sub q e).

Definition pos_dist (ix : IndexFlatL2) (q : Embedding) (p : nat) : Z :=
  match ix !! p with Some e => stub_distance q e | None => 0 end.

Definition nearer (ix : IndexFlatL2) (q : Embedding) (p1 p2 : nat) : Prop :=
  pos_dist ix q p1 ≤ pos_dist ix q p2.

#[global] Instance nearer_dec ix q p1 p2 : Decision (nearer ix q p1 p2).
Proof. unfold nearer. apply _. Defined.

(** All positions of the index, nearest first. *)
Definition ranked (ix : IndexFlatL2) (q : Embedding) : list nat :=
  merge_sort (nearer ix q) (seq 0 (length ix)).

(** The [n] nearest positions, padded with [-1] when the index holds
    fewer than [n] vectors. *)
Definition stub_knn (ix : IndexFlatL2) (q : Embedding) (n : nat) : list Z :=
  let labels := Z.of_nat <$> ranked ix q in
  take n labels ++ replicate (n - length labels)%nat (-1).

(** The stand-in meets what [Faiss] asks of a search. *)

#[local] Instance nearer_total ix q : Total (nearer ix q).
Proof. intros p1 p2. unfold nearer. lia. Qed.

#[local] Instance nearer_trans ix q : Transitive (nearer ix q).
Proof. intros p1 p2 p3. unfold nearer. lia. Qed.

Lemma ranked_elem ix q (p : nat) : p ∈ ranked ix q ↔ (p < length ix)%nat.
Proof. unfold ranked. rewrite merge_sort_Permutation, elem_of_seq. lia. Qed.

Lemma ranked_length ix q : length (ranked ix q) = length ix.
Proof.
  unfold ranked. by rewrite (Permutation_length (merge_sort_Permutation _ _)), length_seq.
Qed.

Lemma stub_knn_valid ix q n z :
  z ∈ stub_knn ix q n → z = -1 ∨ 0 ≤ z < Z.of_nat (length ix).
Proof.
  unfold stub_knn. rewrite elem_of_app. intros [Hz|Hz].
  - right. eapply elem_of_sublist in Hz; [|apply sublist_take].
    apply list_elem_of_fmap in Hz as (p & -> & Hp). apply ranked_elem in Hp. lia.
  - left. by apply elem_of_replicate in Hz as [-> _].
Qed.

Lemma stub_knn_sorted ix q n :
  StronglySorted (row_le stub_distance ix q) (stub_knn ix q n).
Proof.
  unfold stub_knn. apply StronglySorted_app_2.
  - intros z1 z2 _ Hz2. apply elem_of_replicate in Hz2 as [-> _].
    intros _ Hneg. lia.
  - apply (StronglySorted_app_1_l _ _ (drop n (Z.of_nat <$> ranked ix q))).
    rewrite take_drop.
    apply (StronglySorted_fmap _ (nearer ix q)); [|apply StronglySorted_merge_sort; apply _].
    intros p1 p2 Hnear _ _ e1 e2. rewrite !Nat2Z.id. intros H1 H2.
    unfold nearer, pos_dist in Hnear. by rewrite H1, H2 in Hnear.
  - induction (n - _)%nat as [|m IH]; simpl; constructor; [done|].
    apply Forall_forall. intros z Hz. apply elem_of_replicate in Hz as [-> _].
    intros Hneg. lia.
Qed.

Lemma stub_knn_cover ix q n (p : nat) :
  (length ix ≤ n)%nat → (p < length ix)%nat → Z.of_nat p ∈ stub_knn ix q n.
Proof.
  intros Hn Hp. unfold stub_knn.
  rewrite take_ge by (by rewrite length_fmap, ranked_length).
  apply elem_of_app. left. apply list_elem_of_fmap. exists p.
  split; [done|]. by apply ranked_elem.
Qed.

#[export] Instance faiss : Faiss := {|
  distance := stub_distance;
  knn := stub_knn;
  knn_valid := stub_knn_valid;
  knn_sorted := stub_knn_sorted;
  knn_cover := stub_knn_cover;
|}.

End Stub.

Import Embeddings VectorStore.

(** ** Python's [str] methods used by the callers

    A text is a [string] read as a sequence of code points below 256.
    The methods work on the list of its characters. *)

Module PyStr.

(** [c.isspace()], for a code point below 256: tab to carriage return,
    the four separators 28 to 31, space, next line (133) and no-break
    space (160). *)
Definition isspace (c : Ascii.ascii) : bool :=
  let n := Ascii.nat_of_ascii c in
  ((9 <=? n) && (n <=? 13) || (28 <=? n) && (n <=? 32) || (n =? 133) || (n =? 160))%nat.

Fixpoint lstrip (l : list Ascii.ascii) : list Ascii.ascii :=
  match l with
  | [] => []
  | c :: l' => if isspace c then lstrip l' else l
  end.

(** [s.strip()] *)
Definition strip_chars (l : list Ascii.ascii) : list Ascii.ascii :=
  reverse (lstrip (reverse (lstrip l))).

(** [s.split()]: the maximal runs of characters that are not whitespace. *)
Fixpoint split_chars (l : list Ascii.ascii) : list (list Ascii.ascii) :=
  match l with
  | [] => []
  | c :: l' =>
      if isspace c then split_chars l'
      else match l' with
           | [] => [[c]]
           | c' :: _ =>
               if isspace c' then [c] :: split_chars l'
               else match split_chars l' with
                    | w :: ws => (c :: w) :: ws
                    | [] => [[c]]
                    end
           end
  end.

Definition newline : Ascii.ascii := Ascii.ascii_of_nat 10.

(** [s.split('\n\n')]: cut at each blank line, scanning from the left;
    [cur] is the piece being read, reversed. *)
Fixpoint split_blank_go (cur : list Ascii.ascii) (l : list Ascii.ascii) : list (list Ascii.ascii) :=
  match l with
  | [] => [reverse cur]
  | c :: l' =>
      match l' with
      | c' :: l'' =>
          if bool_decide (c = newline) && bool_decide (c' = newline)
          then reverse cur :: split_blank_go [] l''
          else split_blank_go (c :: cur) l'
      | [] => split_blank_go (c :: cur) l'
      end
  end.

Definition split_blank_chars (l : list Ascii.ascii) : list (list Ascii.ascii) :=
  split_blank_go [] l.

Definition strip (s : string) : string :=
  String.string_of_list_ascii (strip_chars (String.list_ascii_of_string s)).

Definition split (s : string) : list string :=
  String.string_of_list_ascii <$> split_chars (String.list_ascii_of_string s).

Definition split_blank (s : string) : list string :=
  String.string_of_list_ascii <$> split_blank_chars (String.list_ascii_of_string s).

(** [sep.join(l)] *)
Fixpoint join (sep : string) (l : list string) : string :=
  match l with
  | [] => ""
  | [s] => s
  | s :: l' => s +:+ sep +:+ join sep l'
  end.

Definition slash : Ascii.ascii := Ascii.ascii_of_nat 47.

(** [os.path.basename(p)] of [posixpath]: what follows the last slash. *)
Fixpoint basename_chars (l : list Ascii.ascii) : list Ascii.ascii :=
  match l with
  | [] => []
  | c :: l' =>
      if bool_decide (Exists (λ x, x = slash) l) then basename_chars l' else l
  end.

Definition basename (p : string) : string :=
  String.string_of_list_ascii (basename_chars (String.list_ascii_of_string p)).

(** For the statements: a word, the space, and [join] on lists of
    characters. *)
Definition is_word (w : list Ascii.ascii) : Prop :=
  w ≠ [] ∧ Forall (λ c, isspace c = false) w.

Definition space : Ascii.ascii := Ascii.ascii_of_nat 32.

Fixpoint join_chars (sep : list Ascii.ascii) (l : list (list Ascii.ascii))
  : list Ascii.ascii :=
  match l with
  | [] => []
  | [w] => w
  | w :: l' => w ++ sep ++ join_chars sep l'
  end.

End PyStr.


(** ** Exceptions of the callers *)

(** The exceptions the callers add to those of the store. *)
Inductive exception : Type :=
| Builtin (e : exn)
| FileNotFoundError (msg : string)
| HTTPException (status_code : Z) (detail : string).

Inductive outcome (A : Type) : Type :=
| Return (a : A)
| Throw (e : exception).
Arguments Return {A} a.
Arguments Throw {A} e.

(** ** pdf_processor.py *)

Module PdfProcessor.

(** What PyMuPDF gives for a file: whether it is a PDF, and for each page
    either its text or the exception that [doc[page_num]] or
    [page.get_text()] raises. *)
Record PdfDocument : Type := mkPdf {
  is_pdf : bool;
  pages : list (result string);
}.

(** The files by path; an [Unreadable] one makes [fitz.open] raise. *)
Definition FileSystem : Type := gmap string (file PdfDocument).

Section WithGensim.
Context `{G : Gensim}.
(** [str(e)] *)
Context (str : exception → string).

(** [[p.strip() for p in text.split('\n\n') if p.strip()]] *)
Definition paragraphs (text : string) : list string :=
  omap (λ p, if bool_decide (PyStr.strip p = "") then None else Some (PyStr.strip p))
       (PyStr.split_blank text).

(** The chunks of one page: the paragraphs of at least ten words. *)
Definition page_chunks (page_num : nat) (text : string) : list (string * Z) :=
  (λ paragraph, (paragraph, Z.of_nat page_num + 1)) <$>
    filter (λ paragraph, (10 ≤ length (PyStr.split paragraph))%nat) (paragraphs text).

(** The loop over the pages; a page that raises is skipped. *)
Definition all_chunks (doc : PdfDocument) : list (string * Z) :=
  mjoin (imap (λ page_num page,
                 match page with
                 | Ok text => page_chunks page_num text
                 | Raise _ => []
                 end) (pages doc)).

(** The body of the outer [try] of [extract_text_from_pdf]. *)
Definition extract_body (f : file PdfDocument) : outcome (list (string * Z)) :=
  match f with
  | Unreadable => Throw (Builtin (RuntimeError "fitz.open"))
  | Readable doc =>
      if negb (is_pdf doc)
      then Throw (Builtin (ValueError "The uploaded file is not a valid PDF"))
      else
        let chunks_with_pages := all_chunks doc in
        match chunks_with_pages with
        | [] => Throw (Builtin (ValueError "No text content could be extracted from the PDF"))
        | _ => Return chunks_with_pages
        end
  end.

Definition extract_text_from_pdf (fs : FileSystem) (file_path : string)
  : outcome (list (string * Z)) :=
  match fs !! file_path with
  | None => Throw (FileNotFoundError ("PDF file not found: " +:+ file_path))
  | Some f =>
      match extract_body f with
      | Return chunks_with_pages => Return chunks_with_pages
      | Throw e => Throw (Builtin (ValueError ("Error processing PDF: " +:+ str e)))
      end
  end.

(** [process_pdf]; [uuid4] is the value [str(uuid.uuid4())] takes. *)
Definition process_pdf (fs : FileSystem) (uuid4 : string) (file_path : string)
    (w : World) : World * outcome string :=
  let doc_id := uuid4 in
  match extract_text_from_pdf fs file_path with
  | Throw e => (w, Throw (Builtin (ValueError ("Failed to process PDF: " +:+ str e))))
  | Return chunks_with_pages =>
      let filename := PyStr.basename file_path in
      match add_document doc_id chunks_with_pages filename w with
      | (w', Ok _) => (w', Return doc_id)
      | (w', Raise e) =>
          (w', Throw (Builtin (ValueError ("Failed to process PDF: " +:+ str (Builtin e)))))
      end
  end.

(** The uploads a process serves, in order: the id drawn for each and its
    path. *)
Definition process_all (fs : FileSystem) (uploads : list (string * string)) (w : World)
  : World :=
  foldl (λ w '(uuid4, file_path), (process_pdf fs uuid4 file_path w).1) w uploads.

End WithGensim.
End PdfProcessor.

(** ** main.py: the endpoints that read the store *)

Module Main.
Section WithLibraries.
Context `{G : Gensim} `{F : Faiss}.
Context (str : exception → string).

(** The status FastAPI answers with: 200 for a returned value, the code of
    an [HTTPException], 500 for any other exception. *)
Definition status {A} (o : outcome A) : Z :=
  match o with
  | Return _ => 200
  | Throw (HTTPException status_code _) => status_code
  | Throw _ => 500
  end.

(** The agents of [agents.py] call a language model: each is a function
    from the retrieved chunks to a text, or an exception. *)
Definition Agent : Type := list (string * Z) → outcome string.

(** The paths under [uploads/] that exist. *)
Definition Uploads : Type := gset string.

(** [str(filename)] inside the f-string, for an optional string. *)
Definition format_optional (filename : option string) : string :=
  match filename with
  | Some name => name
  | None => "None"
  end.

Definition get_pdf (s : FAISSVectorStore) (uploads : Uploads) (doc_id : string)
  : outcome string :=
  let body : outcome string :=
    let filename := get_filename s doc_id in
    let file_path := "uploads/" +:+ format_optional filename in
    if negb (bool_decide (file_path ∈ uploads))
    then Throw (HTTPException 404 "PDF file not found")
    else Return file_path in
  match body with
  | Return response => Return response
  | Throw e => Throw (HTTPException 500 (str e))
  end.

(** The shape the five endpoints [get_summary], [get_abstract],
    [get_proposed_approach], [get_keywords] and [get_results_discussion]
    share: the query, [k], the message of the second 404 and the agent
    differ. *)
Definition retrieve (query : string) (k : Z) (nothing_found : string) (agent : Agent)
    (s : FAISSVectorStore) (doc_id : string) : outcome string :=
  if negb (exists_ s doc_id) then Throw (HTTPException 404 "Document not found")
  else
    match search s query doc_id k with
    | Raise e => Throw (Builtin e)
    | Ok relevant_chunks =>
        match relevant_chunks with
        | [] => Throw (HTTPException 404 nothing_found)
        | _ => agent relevant_chunks
        end
    end.

Definition get_summary (summarize : Agent) :=
  retrieve "Provide a detailed technical summary of the entire research paper, covering problem, methods, results, and contributions."
           10 "Could not find relevant content for summary." summarize.

Definition get_abstract (generate_abstract : Agent) :=
  retrieve "Extract the abstract and main motivation or objective of this research paper."
           5 "Could not find relevant content for abstract." generate_abstract.

Definition get_proposed_approach (extract_approach : Agent) :=
  retrieve "Describe the proposed methodology, approach, algorithms, or framework presented in this paper."
           10 "Could not find relevant content for proposed approach." extract_approach.

Definition get_keywords (extract_keywords : Agent) :=
  retrieve "Identify the main topics, concepts, and keywords of this research paper."
           10 "Could not find relevant content for keywords." extract_keywords.

Definition get_results_discussion (extract_results_discussion : Agent) :=
  retrieve "Extract the results, findings, and discussion sections of this research paper."
           15 "Could not find relevant content for results and discussion."
           extract_results_discussion.

Definition answer_query (answer : string → Agent) (s : FAISSVectorStore)
    (doc_id question : string) : outcome string :=
  if negb (exists_ s doc_id) then Throw (HTTPException 404 "Document not found")
  else
    match search s question doc_id 10 with
    | Raise e => Throw (Builtin e)
    | Ok [] =>
        match search s "" doc_id 5 with
        | Raise e => Throw (Builtin e)
        | Ok [] =>
            Throw (HTTPException 404 "Could not find relevant content for this question.")
        | Ok relevant_chunks => answer question relevant_chunks
        end
    | Ok relevant_chunks => answer question relevant_chunks
    end.

End WithLibraries.
End Main.

(** ** agents.py: the one function that calls no language model *)

Module Agents.

(** [' '.join(text.split())] *)
Definition clean_response (text : string) : string :=
  PyStr.join " " (PyStr.split text).

End Agents.

(** ** A concrete run, over the stand-in

    Two documents ingested into a process started over an empty disk; the
    second text of ["A"] repeats the first on another page. *)

Module Demo.

Definition calls : list call :=
  [("A", [("x x y", 1); ("y z", 2); ("x x y", 3)], "a.pdf");
   ("B", [("x", 1)], "b.pdf")].

Definition w0 : World := startup (G := Stub.gensim) empty_disk.

Definition w : World := run_adds calls w0.

(** A first document none of whose words occurs twice: the vocabulary is
    empty and training raises. *)
Definition failing : World * result unit :=
  add_document "A" [("x y", 1)] "a.pdf" w0.


(** A disk left by an interrupted save: the model and an index file with
    one vector are readable, the registry file is not. *)
Definition stale_disk : Disk :=
  mkDisk (doc2vec_model (disk w)) (Some (Readable [[0; 2]])) (Some Unreadable).

(** A process started over it, after one ingestion. *)
Definition after_stale : World :=
  (add_document "A" [("x x", 1); ("z z", 2)] "a.pdf" (startup stale_disk)).1.

(** A disk that lost its index file: the model and the registry written
    by the run are there. *)
Definition index_less_disk : Disk :=
  mkDisk (doc2vec_model (disk w)) None (vector_store_state (disk w)).

(** A process started over a disk that holds the model only, after the
    ingestion of a document without chunks. *)
Definition untagged : World :=
  (add_document "C" [] "c.pdf" (startup (mkDisk (doc2vec_model (disk w)) None None))).1.


(** One upload: a PDF of three pages, the second unreadable, the third
    with a paragraph of ten words after a short one. *)
Definition paper : PdfProcessor.PdfDocument :=
  PdfProcessor.mkPdf true
    [Ok "title"; Raise (RuntimeError "page");
     Ok (String.app "short one" (String.app (String (Ascii.ascii_of_nat 10) (String (Ascii.ascii_of_nat 10) ""))
                                            "  x x y y z z a a b b "))].

Definition fs : PdfProcessor.FileSystem := {[ "uploads/paper.pdf" := Readable paper ]}.

(** [str(e)], for the runs: the message of the exception. *)
Definition str (e : exception) : string :=
  match e with
  | Builtin (ValueError msg) | Builtin (RuntimeError msg) => msg
  | Builtin (KeyError key) => key
  | Builtin IndexError => "list index out of range"
  | Builtin AssertionError => ""
  | FileNotFoundError msg => msg
  | HTTPException _ detail => detail
  end.

Definition uploaded : World * outcome string :=
  PdfProcessor.process_pdf str fs "id-1" "uploads/paper.pdf" w.

(** An agent that answers with the number of chunks it was given. *)
Definition counting_agent : Main.Agent :=
  λ chunks, Return (String.string_of_list_ascii (replicate (length chunks) PyStr.space)).

End Demo.

(** ** Vocabulary of the statements *)

Section Vocabulary.
Context `{G : Gensim}.

(** The sum, over the registered documents, of their chunk counts. *)
Definition chunk_total (md : gmap string (list (string * Z))) : nat :=
  map_fold (λ _ chunks n, (length chunks + n)%nat) 0%nat md.

(** The model a new [Doc2VecEmbeddings] object finds on the disk. *)
Definition persisted_model (d : Disk) : option Doc2Vec :=
  match doc2vec_model d with
  | Some (Readable m) => Some m
  | _ => None
  end.

(** The registry file on the disk, when it can be read, has no entry for
    [doc_id]. *)
Definition never_persisted (d : Disk) (doc_id : string) : Prop :=
  ∀ state, vector_store_state d = Some (Readable state) →
    (∀ md, pkl_metadata state = Some md → md !! doc_id = None) ∧
    (∀ fns, pkl_filenames state = Some fns → fns !! doc_id = None).

(** The worlds a process reaches from its start over some disk through
    calls of [add_document] that return. *)
Inductive reachable : World → Prop :=
| reachable_startup d : reachable (startup d)
| reachable_add w doc_id chunks filename w' :
    reachable w →
    add_document doc_id chunks filename w = (w', Ok ()) →
    reachable w'.

(** The tags a sequence of returning [add_document] calls appends: the
    [doc_id] of each call, once per chunk, call after call. *)
Definition tag_layout (calls : list call) : list string :=
  calls ≫= λ c, replicate (length c.1.2) c.1.1.

(** The length of the tag sequence when call number [i] is made: where
    its range starts. *)
Definition range_start (calls : list call) (i : nat) : nat :=
  length (tag_layout (take i calls)).

(** The registry after the calls. *)
Definition registry_after (calls : list call) (md : gmap string (list (string * Z)))
  : gmap string (list (string * Z)) :=
  foldl (λ md c, <[c.1.1 := c.1.2]> md) md calls.

(** The invariant of the data model: as many vectors as tags, and the
    tags of every registered document are one range, as long as its chunk
    list, that starts where [_get_doc_start_idx] says. *)
Definition store_inv (s : FAISSVectorStore) : Prop :=
  length (index s) = length (doc_ids s) ∧
  ∀ doc_id chunks, metadata s !! doc_id = Some chunks →
    ∀ p : nat, doc_ids s !! p = Some doc_id ↔
      (_get_doc_start_idx s doc_id ≤ p < _get_doc_start_idx s doc_id + length chunks)%nat.

(** The chunk [search] reads for the index position [p] of a document:
    [self.metadata[doc_id][p - self._get_doc_start_idx(doc_id)]]. *)
Definition chunk_at (s : FAISSVectorStore) (doc_id : string) (p : nat)
  : option (string * Z) :=
  entries ← metadata s !! doc_id;
  py_getitem entries (Z.of_nat p - Z.of_nat (_get_doc_start_idx s doc_id)).

(** The result [r] comes from the index position [p], tagged [doc_id]. *)
Definition result_at (s : FAISSVectorStore) (doc_id : string) (p : nat)
    (r : string * Z) : Prop :=
  doc_ids s !! p = Some doc_id ∧ chunk_at s doc_id p = Some r.

(** The chunk text at a position, when the position is tagged [doc_id]. *)
Definition tagged_text (s : FAISSVectorStore) (doc_id : string) (p : nat)
  : option string :=
  if bool_decide (doc_ids s !! p = Some doc_id) then fst <$> chunk_at s doc_id p
  else None.

(** The unique chunk texts available for a document: the texts at the
    positions tagged with it. *)
Definition available (s : FAISSVectorStore) (doc_id : string) : gset string :=
  list_to_set (omap (tagged_text s doc_id) (seq 0 (length (doc_ids s)))).

(** Every upload of the sequence returns, or fails in the extraction,
    before the store is touched. *)
Fixpoint ingested_or_rejected (str : exception → string) (fs : PdfProcessor.FileSystem)
    (uploads : list (string * string)) (w : World) : Prop :=
  match uploads with
  | [] => True
  | (uuid4, file_path) :: rest =>
      (match (PdfProcessor.process_pdf str fs uuid4 file_path w).2 with
       | Return _ => True
       | Throw _ => ∃ e, PdfProcessor.extract_text_from_pdf str fs file_path = Throw e
       end) ∧
      ingested_or_rejected str fs rest (PdfProcessor.process_pdf str fs uuid4 file_path w).1
  end.

End Vocabulary.

(** ** Further vocabulary *)

Section MoreVocabulary.
Context `{G : Gensim}.

(** A label of the row that passes the two tests of the loop of [search]:
    it is a position of the tag sequence, and its tag is [doc_id]. *)
Definition tagged (s : FAISSVectorStore) (doc_id : string) (idx : Z) : Prop :=
  (0 ≤ idx < Z.of_nat (length (doc_ids s))) ∧
  doc_ids s !! Z.to_nat idx = Some doc_id.

(** The invariant of the data model, and every tag is a registered id. *)
Definition store_wf (s : FAISSVectorStore) : Prop :=
  store_inv s ∧ ∀ doc_id, doc_id ∈ doc_ids s → is_Some (metadata s !! doc_id).

End MoreVocabulary.

(** * Properties *)

(** Unfolding the monads down to pairs and matches. *)
Ltac monad_unfold :=
  repeat unfold mbind, mret, M_bind, M_ret, result_bind, result_ret,
    get, put, modify, lift, try_except, zoom,
    modify_store, modify_disk, on_embeddings,
    set_self_model, write_model_file in *.

Section EmbeddingsFacts.
Context `{G : Gensim}.

Lemma set_model_fields m (e : Doc2VecEmbeddings) :
  vector_size (set_model m e) = vector_size e ∧
  min_count (set_model m e) = min_count e ∧
  epochs (set_model m e) = epochs e ∧
  model (set_model m e) = m.
Proof. by destruct e. Qed.

(** What [fit] leaves behind, whether it returns or raises: the
    parameters of the object are kept, [self.model] is set, and the model
    file is written exactly when the call returns. *)
Lemma fit_cases (texts : list string) (e : Doc2VecEmbeddings) (d : Disk) :
  ∃ e' d' r, fit texts (e, d) = ((e', d'), r) ∧
    vector_size e' = vector_size e ∧ min_count e' = min_count e ∧
    epochs e' = epochs e ∧
    faiss_index d' = faiss_index d ∧
    vector_store_state d' = vector_store_state d ∧
    ∃ m, model e' = Some m ∧
      match r with
      | Ok _ => doc2vec_model d' = Some (Readable m)
      | Raise _ => d' = d
      end.
Proof.
  unfold fit, _save_model. monad_unfold. simpl.
  destruct (build_vocab _ _) as [m1|x]; simpl.
  - destruct (train _ _ _ _) as [m2|x]; simpl; eauto 20.
  - eauto 20.
Qed.

(** [fit] never looks at the current [self.model]. *)
Lemma fit_ignores_model (texts : list string) (e : Doc2VecEmbeddings) (d : Disk)
    (current : option Doc2Vec) :
  fit texts (set_model current e, d) = fit texts (e, d).
Proof.
  unfold fit, _save_model. monad_unfold. simpl.
  destruct (build_vocab _ _) as [m1|x]; simpl; [|done].
  destruct (train _ _ _ _) as [m2|x]; simpl; done.
Qed.

(** A list comprehension over a function that may raise. *)
Lemma mapM_cons {A B} (f : A → result B) x l :
  mapM f (x :: l) = y ← f x; k ← mapM f l; mret (y :: k).
Proof. reflexivity. Qed.

Lemma mapM_Ok {A B} (f : A → result B) (l : list A) (k : list B) :
  mapM f l = Ok k ↔ Forall2 (λ x y, f x = Ok y) l k.
Proof.
  revert k. induction l as [|x l IH]; intros k.
  - split; [by intros [= <-]; constructor|by inversion 1].
  - rewrite mapM_cons. split.
    + destruct (f x) as [y|] eqn:Hy; [|done].
      destruct (mapM f l) as [k'|] eqn:Hk; [|done].
      intros [= <-]. constructor; [done|]. by apply IH.
    + inversion 1 as [|? y ? k' Hy Hk]; subst. rewrite Hy.
      apply IH in Hk. by rewrite Hk.
Qed.



(** [embed_batch] is [embed] on each text, in order: it returns when
    [embed] returns on every text, and raises otherwise. *)
Lemma embed_batch_Ok (e : Doc2VecEmbeddings) (texts : list string) (es : list Embedding) :
  embed_batch e texts = Ok es ↔
  model e ≠ None ∧ Forall2 (λ t v, embed e t = Ok v) texts es.
Proof.
  unfold embed_batch, embed. destruct (model e) as [m|]; [|by split; [|intros [? _]]].
  rewrite mapM_Ok, Forall2_fmap_l. split; [by intros ?|by intros [_ ?]].
Qed.


Lemma embed_batch_length (e : Doc2VecEmbeddings) (texts : list string) es :
  embed_batch e texts = Ok es → length es = length texts.
Proof. intros [_ Hall]%embed_batch_Ok. symmetry. by eapply Forall2_length. Qed.

End EmbeddingsFacts.

Section StoreFacts.
Context `{G : Gensim}.

(** The effect of [add_document], whether it returns or raises.  The
    registry is written first; the index, the tags and the two state
    files change only when the call returns; the model, and the model
    file, only when no model was set. *)
Lemma add_document_cases doc_id chunks filename (w : World) :
  ∃ w' r, add_document doc_id chunks filename w = (w', r) ∧
    metadata (store w') = <[doc_id := chunks]> (metadata (store w)) ∧
    filenames (store w') = <[doc_id := filename]> (filenames (store w)) ∧
    dimension (store w') = dimension (store w) ∧
    vector_size (embeddings (store w')) = vector_size (embeddings (store w)) ∧
    min_count (embeddings (store w')) = min_count (embeddings (store w)) ∧
    epochs (embeddings (store w')) = epochs (embeddings (store w)) ∧
    (∀ m, model (embeddings (store w)) = Some m →
          model (embeddings (store w')) = Some m ∧
          doc2vec_model (disk w') = doc2vec_model (disk w)) ∧
    match r with
    | Ok _ =>
        ∃ m, model (embeddings (store w')) = Some m ∧
          (model (embeddings (store w)) = None →
           doc2vec_model (disk w') = Some (Readable m)) ∧
          (∃ es, embed_batch (embeddings (store w')) chunks.*1 = Ok es ∧ chunks ≠ [] ∧
                 index (store w') = index (store w) ++ es) ∧
          doc_ids (store w') = doc_ids (store w) ++ replicate (length chunks) doc_id ∧
          faiss_index (disk w') = Some (Readable (index (store w'))) ∧
          vector_store_state (disk w') =
            Some (Readable (mkPickled (Some (metadata (store w')))
                                      (Some (doc_ids (store w')))
                                      (Some (filenames (store w')))))
    | Raise _ =>
        (∃ m, model (embeddings (store w')) = Some m) ∧
        index (store w') = index (store w) ∧
        doc_ids (store w') = doc_ids (store w) ∧
        faiss_index (disk w') = faiss_index (disk w) ∧
        vector_store_state (disk w') = vector_store_state (disk w) ∧
        (model (embeddings (store w)) ≠ None → disk w' = disk w)
    end.
Proof.
  destruct w as [[e dim ix md ids fns] d].
  (* the part of the call after the guard, on the embedding object [e'] *)
  assert (Hrest : ∀ (e' : Doc2VecEmbeddings) (d' : Disk) m,
    model e' = Some m →
    ∃ w' r,
      (w ← get;
       embeddings ← lift (embed_batch (embeddings (store w)) chunks.*1);
       ix ← lift (index_add (index (store w)) embeddings);
       _ ← modify_store (set_index ix);
       _ ← modify_store (λ s, set_doc_ids (doc_ids s ++ replicate (length chunks.*1) doc_id) s);
       _save_state)
        (mkWorld (mkStore e' dim ix (<[doc_id := chunks]> md) ids
                          (<[doc_id := filename]> fns)) d') = (w', r) ∧
      metadata (store w') = <[doc_id := chunks]> md ∧
      filenames (store w') = <[doc_id := filename]> fns ∧
      dimension (store w') = dim ∧
      embeddings (store w') = e' ∧
      doc2vec_model (disk w') = doc2vec_model d' ∧
      match r with
      | Ok _ =>
          (∃ es, embed_batch e' chunks.*1 = Ok es ∧ chunks ≠ [] ∧
                 index (store w') = ix ++ es) ∧
          doc_ids (store w') = ids ++ replicate (length chunks) doc_id ∧
          faiss_index (disk w') = Some (Readable (index (store w'))) ∧
          vector_store_state (disk w') =
            Some (Readable (mkPickled (Some (metadata (store w')))
                                      (Some (doc_ids (store w')))
                                      (Some (filenames (store w')))))
      | Raise _ =>
          index (store w') = ix ∧ doc_ids (store w') = ids ∧ disk w' = d'
      end).
  { intros e' d' m Hm. unfold _save_state. monad_unfold. simpl.
    destruct (embed_batch e' chunks.*1) as [es|x] eqn:Hes; simpl.
    2:{ do 2 eexists. split; [reflexivity|]. simpl. split_and!; done. }
    pose proof (embed_batch_length _ _ _ Hes) as Hlen. rewrite length_fmap in Hlen.
    destruct es as [|v es]; simpl.
    { do 2 eexists. split; [reflexivity|]. simpl. split_and!; done. }
    do 2 eexists. split; [reflexivity|]. simpl. rewrite length_fmap.
    split_and!; try done.
    exists (v :: es). split_and!; [done| |done]. by destruct chunks. }
  unfold add_document.
  destruct (model e) as [m|] eqn:Hm.
  - destruct (Hrest e d m Hm) as (w' & r & Heq & Hmd & Hfn & Hdim & He & Hfile & Hr).
    exists w', r. split.
    { monad_unfold. simpl. rewrite Hm. simpl. exact Heq. }
    simpl. rewrite He. split_and!; try done.
    destruct r as [[]|x].
    + destruct Hr as (Hix & Hids & Hfi & Hst). exists m. split_and!; try done. congruence.
    + destruct Hr as (Hix & Hids & Hd). rewrite Hd. split_and!; eauto.
  - destruct (fit_cases (chunks.*1) e d)
      as (e' & d' & rf & Hfit & Hvs & Hmc & Hep & Hfi & Hst & m & Hm' & Hrf).
    destruct rf as [[]|x].
    + destruct (Hrest e' d' m Hm') as (w' & r & Heq & Hmd & Hfn & Hdim & He & Hfile & Hr).
      exists w', r. split.
      { monad_unfold. simpl. rewrite Hm. simpl. rewrite Hfit. simpl. exact Heq. }
      simpl. rewrite He. split_and!; try done; try (intros; congruence).
      destruct r as [[]|x].
      * destruct Hr as (Hix & Hids & Hfi' & Hst'). exists m. split_and!; try done.
        intros _. by rewrite Hfile.
      * destruct Hr as (Hix & Hids & Hd). rewrite Hd. split_and!; eauto; try done.
    + eexists _, (Raise x). split.
      { monad_unfold. simpl. rewrite Hm. simpl. rewrite Hfit. simpl. reflexivity. }
      simpl. subst d'. split_and!; eauto; try done; try (intros; congruence).
Qed.

End StoreFacts.

Section EmbeddingsClaims.
Context `{G : Gensim}.




End EmbeddingsClaims.

Section IngestionClaims.
Context `{G : Gensim}.

(** C8: immediately after [add_document(doc_id, chunks, filename)] returns,
    [exists(doc_id)] is true and [get_filename(doc_id)] is [filename]. *)
Theorem add_document_registers doc_id chunks filename (w w' : World) :
  add_document doc_id chunks filename w = (w', Ok ()) →
  exists_ (store w') doc_id = true ∧
  get_filename (store w') doc_id = Some filename.
Proof.
  intros Hadd.
  destruct (add_document_cases doc_id chunks filename w)
    as (w1 & r & Heq & Hmd & Hfn & _).
  rewrite Hadd in Heq. injection Heq as <- <-.
  unfold exists_, get_filename. rewrite Hmd, Hfn, !lookup_insert_eq.
  split; [|done]. apply bool_decide_eq_true. eauto.
Qed.

Lemma chunk_total_insert_fresh md doc_id chunks :
  md !! doc_id = None →
  chunk_total (<[doc_id := chunks]> md) = (length chunks + chunk_total md)%nat.
Proof.
  intros Hfresh. unfold chunk_total.
  rewrite map_fold_insert_L; [done| |done]. intros. lia.
Qed.

(** C10: [add_document] writes the registry before it trains and embeds.
    When the call raises, the document is registered ([exists] is true,
    its chunks and filename are stored) while the index and the tag
    sequence are as before the call; for a new document with at least one
    chunk, a store whose index and tag lengths equalled the registry's
    chunk total no longer has that equality. *)
Theorem add_document_raise_leaves_registry doc_id chunks filename (w w' : World) (x : exn) :
  add_document doc_id chunks filename w = (w', Raise x) →
  exists_ (store w') doc_id = true ∧
  metadata (store w') !! doc_id = Some chunks ∧
  get_filename (store w') doc_id = Some filename ∧
  index (store w') = index (store w) ∧
  doc_ids (store w') = doc_ids (store w) ∧
  (metadata (store w) !! doc_id = None → chunks ≠ [] →
   length (index (store w)) = length (doc_ids (store w)) →
   length (doc_ids (store w)) = chunk_total (metadata (store w)) →
   length (index (store w')) ≠ chunk_total (metadata (store w')) ∧
   length (doc_ids (store w')) ≠ chunk_total (metadata (store w'))).
Proof.
  intros Hadd.
  destruct (add_document_cases doc_id chunks filename w)
    as (w1 & r & Heq & Hmd & Hfn & _ & _ & _ & _ & _ & Hr).
  rewrite Hadd in Heq. injection Heq as <- <-.
  destruct Hr as (_ & Hix & Hids & _).
  unfold exists_, get_filename. rewrite Hmd, Hfn, Hix, Hids, !lookup_insert_eq.
  split_and!; try done.
  intros Hfresh Hne Hlen Htot.
  rewrite chunk_total_insert_fresh by done.
  destruct chunks; [done|]. simpl. lia.
Qed.

Lemma run_adds_keeps_trained_model (calls : list call) (w : World) (m : Doc2Vec) :
  model (embeddings (store w)) = Some m →
  model (embeddings (store (run_adds calls w))) = Some m ∧
  doc2vec_model (disk (run_adds calls w)) = doc2vec_model (disk w).
Proof.
  revert w. induction calls as [|[[doc_id chunks] filename] calls IH]; intros w Hm.
  - done.
  - simpl.
    destruct (add_document_cases doc_id chunks filename w)
      as (w1 & r & Heq & _ & _ & _ & _ & _ & _ & Hkeep & _).
    rewrite Heq. simpl. destruct (Hkeep m Hm) as [Hm1 Hd1].
    destruct (IH w1 Hm1) as [-> ->]. done.
Qed.

(** C5 (as the code has it): [fit] has no guard of its own, what it does
    is the same whatever the current model is; the guard is in
    [add_document], which calls [fit] only when [self.embeddings.model]
    is unset.  Once the model is set, no sequence of [add_document]
    calls, returning or raising, changes it or the model file. *)
Theorem fit_guard_is_in_add_document :
  (∀ texts (e : Doc2VecEmbeddings) (d : Disk) current,
     fit texts (set_model current e, d) = fit texts (e, d)) ∧
  (∀ (calls : list call) (w : World) (m : Doc2Vec),
     model (embeddings (store w)) = Some m →
     model (embeddings (store (run_adds calls w))) = Some m ∧
     doc2vec_model (disk (run_adds calls w)) = doc2vec_model (disk w)).
Proof.
  split.
  - intros. apply fit_ignores_model.
  - apply run_adds_keeps_trained_model.
Qed.

End IngestionClaims.

Section PersistenceFacts.
Context `{G : Gensim}.

Lemma embeddings_init vs mc ep (d : Disk) :
  Embeddings.__init__ vs mc ep d = (mkEmbeddings vs mc ep (persisted_model d), d).
Proof.
  unfold Embeddings.__init__, _load_model, persisted_model. monad_unfold. simpl.
  destruct (doc2vec_model d) as [[m|]|]; reflexivity.
Qed.

Lemma init_world (d : Disk) :
  VectorStore.__init__ d =
    mkWorld (mkStore (mkEmbeddings 300 2 20 (persisted_model d)) 300 [] ∅ [] ∅) d.
Proof. unfold VectorStore.__init__. by rewrite embeddings_init. Qed.

(** [_load_state] is total in the model: every exception of the body is
    caught; it never touches the disk or [self.embeddings]. *)
Lemma load_state_total (w : World) :
  ∃ w' b, _load_state w = (w', Ok b) ∧ disk w' = disk w ∧
          embeddings (store w') = embeddings (store w) ∧
          dimension (store w') = dimension (store w).
Proof.
  destruct w as [s d]. unfold _load_state. monad_unfold. simpl.
  destruct (faiss_index d) as [[ix|]|], (vector_store_state d) as [[[[md|] [ids|] [fns|]]|]|];
    simpl; eauto 10.
Qed.

(** Loading what [_save_state] wrote. *)
Lemma startup_saved (d : Disk) ix md ids fns :
  faiss_index d = Some (Readable ix) →
  vector_store_state d = Some (Readable (mkPickled (Some md) (Some ids) (Some fns))) →
  startup d = mkWorld (mkStore (mkEmbeddings 300 2 20 (persisted_model d)) 300 ix md ids fns) d.
Proof.
  intros Hix Hst. unfold startup. rewrite init_world.
  unfold _load_state. monad_unfold. simpl. rewrite Hix, Hst. reflexivity.
Qed.

Lemma startup_frame (d : Disk) :
  disk (startup d) = d ∧
  embeddings (store (startup d)) = mkEmbeddings 300 2 20 (persisted_model d) ∧
  dimension (store (startup d)) = 300%nat.
Proof.
  unfold startup.
  destruct (load_state_total (VectorStore.__init__ d)) as (w' & b & -> & Hd & He & Hdim).
  simpl. rewrite Hd, He, Hdim, init_world. done.
Qed.

Lemma startup_never_persisted (d : Disk) doc_id :
  never_persisted d doc_id →
  metadata (store (startup d)) !! doc_id = None ∧
  filenames (store (startup d)) !! doc_id = None.
Proof.
  intros Hnp. unfold startup. rewrite init_world.
  unfold _load_state. monad_unfold. simpl.
  unfold never_persisted in Hnp.
  destruct (faiss_index d) as [[ix|]|], (vector_store_state d) as [[[[md|] [ids|] [fns|]]|]|];
    simpl; try done.
  all: destruct (Hnp _ eq_refl) as [Hmd Hfns]; simpl in *; auto.
Qed.

Lemma save_state_effect (w : World) :
  _save_state w =
    (mkWorld (store w)
       (mkDisk (doc2vec_model (disk w)) (Some (Readable (index (store w))))
          (Some (Readable (mkPickled (Some (metadata (store w)))
                                     (Some (doc_ids (store w)))
                                     (Some (filenames (store w))))))), Ok ()).
Proof. reflexivity. Qed.

(** Reached worlds keep the constructor's parameters, and their model is
    the one on the disk. *)
Lemma reachable_embeddings (w : World) :
  reachable w →
  embeddings (store w) = mkEmbeddings 300 2 20 (persisted_model (disk w)) ∧
  dimension (store w) = 300%nat.
Proof.
  induction 1 as [d|w doc_id chunks filename w' Hw [IHe IHd] Hadd].
  - destruct (startup_frame d) as (Hd & He & Hdim). by rewrite Hd.
  - destruct (add_document_cases doc_id chunks filename w)
      as (w1 & r & Heq & _ & _ & Hdim & Hvs & Hmc & Hep & Hkeep & Hr).
    rewrite Hadd in Heq. injection Heq as <- <-.
    destruct Hr as (m & Hm & Hfile & _).
    split; [|congruence].
    rewrite IHe in Hvs, Hmc, Hep, Hkeep, Hfile. simpl in *.
    destruct (embeddings (store w')) as [vs mc ep mo]. simpl in *. subst.
    f_equal. destruct (persisted_model (disk w)) as [m0|] eqn:Hpm.
    + destruct (Hkeep m0 eq_refl) as [[= ->] Hd].
      unfold persisted_model in *. by rewrite Hd.
    + unfold persisted_model. by rewrite Hfile.
Qed.

End PersistenceFacts.

Section RegistryClaims.
Context `{G : Gensim} `{F : Faiss}.

(** [search] reads the embedding object, the index, the registry and the
    tags; the filename table and [dimension] do not matter to it. *)
Lemma search_loop_ext (s1 s2 : FAISSVectorStore) doc_id k I0 results seen :
  metadata s1 = metadata s2 → doc_ids s1 = doc_ids s2 →
  search_loop s1 doc_id k I0 results seen = search_loop s2 doc_id k I0 results seen.
Proof.
  intros Hmd Hids. revert results seen.
  induction I0 as [|idx rest IH]; intros results seen; simpl; [done|].
  unfold _get_doc_start_idx. rewrite Hmd, Hids.
  repeat case_match; auto.
Qed.

Lemma search_ext (s1 s2 : FAISSVectorStore) query doc_id k :
  embeddings s1 = embeddings s2 → index s1 = index s2 →
  metadata s1 = metadata s2 → doc_ids s1 = doc_ids s2 →
  search s1 query doc_id k = search s2 query doc_id k.
Proof.
  intros He Hix Hmd Hids. unfold search, exists_. rewrite He, Hix, Hmd, Hids.
  destruct (negb _); [done|].
  destruct (embed _ _); simpl; [|done].
  destruct (index_search _ _ _); simpl; [|done].
  by apply search_loop_ext.
Qed.

(** C4: write the state with [_save_state], then construct a new store
    over the resulting disk and load.  The new store answers [exists] and
    [get_filename] as the old one does, and [search] as well when both run
    with the same embedding object [e]; for a world reached through calls
    that returned, the new store is the old one, embedding object
    included. *)
Theorem save_load_roundtrip (w : World) :
  let w' := startup (disk (_save_state w).1) in
  (∀ doc_id, exists_ (store w') doc_id = exists_ (store w) doc_id) ∧
  (∀ doc_id, get_filename (store w') doc_id = get_filename (store w) doc_id) ∧
  (∀ e query doc_id k,
     search (set_embeddings e (store w')) query doc_id k =
     search (set_embeddings e (store w)) query doc_id k) ∧
  (reachable w →
     store w' = store w ∧
     ∀ query doc_id k,
       search (store w') query doc_id k = search (store w) query doc_id k).
Proof.
  rewrite save_state_effect. simpl.
  erewrite startup_saved by reflexivity. simpl.
  split_and!; try done.
  - intros. by apply search_ext.
  - intros Hreach. destruct (reachable_embeddings w Hreach) as [He Hdim].
    assert (Hst : ∀ s : FAISSVectorStore,
      mkStore (embeddings s) (dimension s) (index s) (metadata s) (doc_ids s)
              (filenames s) = s) by (by intros []).
    unfold persisted_model. simpl. unfold persisted_model in He.
    rewrite <-He, <-Hdim, Hst. done.
Qed.

Lemma add_document_other_id doc_id doc_id' chunks filename (w : World) :
  doc_id' ≠ doc_id →
  metadata (store (add_document doc_id' chunks filename w).1) !! doc_id
    = metadata (store w) !! doc_id ∧
  filenames (store (add_document doc_id' chunks filename w).1) !! doc_id
    = filenames (store w) !! doc_id.
Proof.
  intros Hne.
  destruct (add_document_cases doc_id' chunks filename w)
    as (w1 & r & Heq & Hmd & Hfn & _).
  rewrite Heq. simpl. by rewrite Hmd, Hfn, !lookup_insert_ne.
Qed.

(** C7: a [doc_id] that is in no registry file read at startup and in no
    [add_document] call served since (returning or raising) is unknown:
    [exists] is false, [get_filename] is [None], and [search] returns the
    empty list, without raising, for every query and every [k]. *)
Theorem unknown_doc_id (d : Disk) (calls : list call) (doc_id : string) :
  never_persisted d doc_id →
  doc_id ∉ calls.*1.*1 →
  let s := store (run_adds calls (startup d)) in
  exists_ s doc_id = false ∧
  get_filename s doc_id = None ∧
  ∀ query k, search s query doc_id k = Ok [].
Proof.
  intros Hnp Hnotin.
  assert (Hunk : metadata (store (run_adds calls (startup d))) !! doc_id = None ∧
                 filenames (store (run_adds calls (startup d))) !! doc_id = None).
  { generalize (startup_never_persisted d doc_id Hnp).
    generalize (startup d) as w. clear Hnp. revert Hnotin.
    induction calls as [|[[doc_id' chunks] filename] calls IH]; intros Hnotin w Hw.
    - done.
    - simpl in *. apply not_elem_of_cons in Hnotin as [Hne Hnotin].
      apply IH; [done|].
      destruct (add_document_other_id doc_id doc_id' chunks filename w) as [-> ->]; done. }
  destruct Hunk as [Hmd Hfn]. simpl.
  assert (Hex : exists_ (store (run_adds calls (startup d))) doc_id = false).
  { unfold exists_. rewrite Hmd. apply bool_decide_eq_false. by intros [? ?]. }
  split_and!; [done|done|].
  intros. unfold search. by rewrite Hex.
Qed.

(** C9 (the run that departs from it): with a readable index file holding
    the vectors [ix] and an unreadable registry file, startup catches the
    exception, [_load_state] returns [False], and the store is left with
    the loaded index and an empty registry and tag sequence.  With [ix]
    not empty this is not the empty store. *)
Theorem load_state_keeps_index_on_corrupt_registry
    (model_file : option (file Doc2Vec)) (ix : IndexFlatL2) :
  let d := mkDisk model_file (Some (Readable ix)) (Some Unreadable) in
  ∃ w, _load_state (VectorStore.__init__ d) = (w, Ok false) ∧
       startup d = w ∧
       index (store w) = ix ∧
       metadata (store w) = ∅ ∧
       doc_ids (store w) = [] ∧
       filenames (store w) = ∅.
Proof.
  simpl. unfold startup. rewrite init_world. eexists. split; [reflexivity|]. done.
Qed.

End RegistryClaims.

Section LayoutFacts.
Context `{G : Gensim}.

Lemma tag_layout_cons (c : call) calls :
  tag_layout (c :: calls) = replicate (length c.1.2) c.1.1 ++ tag_layout calls.
Proof. reflexivity. Qed.

Lemma tag_layout_app calls1 calls2 :
  tag_layout (calls1 ++ calls2) = tag_layout calls1 ++ tag_layout calls2.
Proof. unfold tag_layout. apply bind_app. Qed.

Lemma tag_layout_elem (x : string) calls :
  x ∈ tag_layout calls → x ∈ calls.*1.*1.
Proof.
  induction calls as [|c calls IH]; [done|].
  rewrite tag_layout_cons, elem_of_app. simpl. intros [Hx|Hx].
  - apply elem_of_replicate in Hx as [-> _]. left.
  - right. auto.
Qed.

(** The tags of one call sit in one range, when no other call has its id. *)
Lemma tag_layout_range before after doc_id chunks filename (p : nat) :
  doc_id ∉ before.*1.*1 → doc_id ∉ after.*1.*1 →
  tag_layout (before ++ (doc_id, chunks, filename) :: after) !! p = Some doc_id ↔
  (length (tag_layout before) ≤ p < length (tag_layout before) + length chunks)%nat.
Proof.
  intros Hb Ha. rewrite tag_layout_app, tag_layout_cons. simpl.
  split.
  - intros Hp. apply lookup_app_Some in Hp as [Hp|[Hge Hp]].
    { exfalso. apply Hb, tag_layout_elem. by eapply list_elem_of_lookup_2. }
    apply lookup_app_Some in Hp as [Hp|[Hge2 Hp]].
    + apply lookup_replicate in Hp as [_ Hlt]. lia.
    + exfalso. apply Ha, tag_layout_elem. by eapply list_elem_of_lookup_2.
  - intros [Hge Hlt]. rewrite lookup_app_r by done.
    rewrite lookup_app_l by (rewrite length_replicate; lia).
    apply lookup_replicate. split; [done|lia].
Qed.

Lemma start_idx_from_first before after doc_id (count : nat) :
  doc_id ∉ before →
  start_idx_from (before ++ doc_id :: after) doc_id count = (count + length before)%nat.
Proof.
  revert count. induction before as [|x before IH]; intros count Hb; simpl.
  - rewrite bool_decide_eq_true_2 by done. lia.
  - apply not_elem_of_cons in Hb as [Hne Hb].
    rewrite bool_decide_eq_false_2 by done. rewrite IH by done. lia.
Qed.

Lemma start_idx_from_absent ids doc_id (count : nat) :
  doc_id ∉ ids → start_idx_from ids doc_id count = 0%nat.
Proof.
  revert count. induction ids as [|x ids IH]; intros count Hb; simpl; [done|].
  apply not_elem_of_cons in Hb as [Hne Hb].
  rewrite bool_decide_eq_false_2 by done. auto.
Qed.

Lemma registry_after_absent calls md doc_id :
  doc_id ∉ calls.*1.*1 → registry_after calls md !! doc_id = md !! doc_id.
Proof.
  revert md. induction calls as [|c calls IH]; intros md Hn; [done|].
  simpl in *. apply not_elem_of_cons in Hn as [Hne Hn].
  rewrite IH by done. by rewrite lookup_insert_ne.
Qed.

Lemma registry_after_lookup calls md i doc_id chunks filename :
  NoDup calls.*1.*1 → calls !! i = Some (doc_id, chunks, filename) →
  registry_after calls md !! doc_id = Some chunks.
Proof.
  revert md i. induction calls as [|c calls IH]; intros md i Hnd Hi; [done|].
  simpl in Hnd. apply NoDup_cons in Hnd as [Hc Hnd].
  destruct i as [|i]; simpl in *.
  - injection Hi as ->. simpl in *.
    rewrite registry_after_absent by done. by rewrite lookup_insert_eq.
  - by eapply IH.
Qed.

Lemma registry_after_inv calls doc_id chunks :
  NoDup calls.*1.*1 → registry_after calls ∅ !! doc_id = Some chunks →
  ∃ i filename, calls !! i = Some (doc_id, chunks, filename).
Proof.
  intros Hnd Hl.
  destruct (decide (doc_id ∈ calls.*1.*1)) as [Hin|Hn].
  - rewrite <-list_fmap_compose in Hin.
    apply list_elem_of_fmap in Hin as ([[id cs] fn] & -> & Hin).
    apply list_elem_of_lookup in Hin as [i Hi]. simpl in *.
    erewrite registry_after_lookup in Hl by done. injection Hl as ->. eauto.
  - rewrite registry_after_absent in Hl by done. by rewrite lookup_empty in Hl.
Qed.

Lemma chunk_total_registry_after calls md :
  NoDup calls.*1.*1 → (∀ c, c ∈ calls → md !! c.1.1 = None) →
  chunk_total (registry_after calls md) = (chunk_total md + length (tag_layout calls))%nat.
Proof.
  revert md. induction calls as [|c calls IH]; intros md Hnd Hfresh.
  - simpl. unfold tag_layout. simpl. lia.
  - simpl in Hnd. apply NoDup_cons in Hnd as [Hc Hnd]. simpl.
    rewrite IH; [|done|].
    + rewrite chunk_total_insert_fresh by (apply Hfresh; left).
      unfold tag_layout. simpl. rewrite length_app, length_replicate. lia.
    + intros c' Hc'. rewrite lookup_insert_ne; [apply Hfresh; by right|].
      intros Heq. apply Hc. rewrite Heq.
      apply list_elem_of_fmap. exists c'.1. split; [done|].
      apply list_elem_of_fmap. by exists c'.
Qed.

(** What a sequence of returning calls does to the store. *)
Lemma add_all_effect calls (w0 w : World) :
  add_all calls w0 = (w, Ok ()) →
  doc_ids (store w) = doc_ids (store w0) ++ tag_layout calls ∧
  length (index (store w)) = (length (index (store w0)) + length (tag_layout calls))%nat ∧
  metadata (store w) = registry_after calls (metadata (store w0)).
Proof.
  revert w0. induction calls as [|[[doc_id chunks] filename] calls IH]; intros w0 Hrun.
  - injection Hrun as <-. unfold tag_layout. simpl. rewrite app_nil_r. split_and!; [done|lia|done].
  - simpl in Hrun. unfold mbind, M_bind in Hrun.
    destruct (add_document_cases doc_id chunks filename w0)
      as (w1 & r & Heq & Hmd & _ & _ & _ & _ & _ & _ & Hr).
    rewrite Heq in Hrun. destruct r as [[]|x]; [|done].
    destruct Hr as (m & _ & _ & (es & Hes & _ & Hix) & Hids & _).
    apply embed_batch_length in Hes. rewrite length_fmap in Hes.
    destruct (IH w1 Hrun) as (IH1 & IH2 & IH3).
    rewrite tag_layout_cons. simpl.
    rewrite IH1, IH2, IH3, Hids, Hix, Hmd, !length_app, length_replicate, <-app_assoc.
    split_and!; [done|lia|done].
Qed.

End LayoutFacts.

Section LayoutClaims.
Context `{G : Gensim}.

Lemma range_start_S calls i (c : call) :
  calls !! i = Some c →
  range_start calls (S i) = (range_start calls i + length c.1.2)%nat.
Proof.
  intros Hi. unfold range_start. erewrite take_S_r by done.
  rewrite tag_layout_app, length_app. unfold tag_layout at 2. simpl.
  rewrite app_nil_r, length_replicate. done.
Qed.

Lemma range_start_mono calls i j :
  (i ≤ j)%nat → (range_start calls i ≤ range_start calls j)%nat.
Proof.
  induction 1 as [|j Hle IH]; [done|].
  destruct (calls !! j) as [c|] eqn:Hj.
  - rewrite (range_start_S _ _ c) by done. lia.
  - unfold range_start in *. apply lookup_ge_None in Hj.
    rewrite (take_ge calls (S j)) by lia. by rewrite (take_ge calls j) in IH by lia.
Qed.

Lemma calls_split (calls : list call) i doc_id chunks filename :
  NoDup calls.*1.*1 → calls !! i = Some (doc_id, chunks, filename) →
  calls = (take i calls ++ (doc_id, chunks, filename) :: drop (S i) calls) ∧
  (doc_id ∉ (take i calls).*1.*1) ∧ (doc_id ∉ (drop (S i) calls).*1.*1).
Proof.
  intros Hnd Hi. pose proof (take_drop_middle _ _ _ Hi) as Hsplit.
  split; [done|]. rewrite <-Hsplit in Hnd.
  rewrite !fmap_app, !fmap_cons in Hnd. simpl in Hnd.
  apply NoDup_app in Hnd as (_ & Hdisj & Hnd).
  apply NoDup_cons in Hnd as [Hafter _].
  split; [|done]. intros Hin. apply (Hdisj _ Hin). left.
Qed.

(** The tags of one call of the sequence, laid out after an empty tag
    sequence. *)
Lemma layout_of_call (calls : list call) i doc_id chunks filename :
  NoDup calls.*1.*1 → calls !! i = Some (doc_id, chunks, filename) →
  (∀ p : nat, tag_layout calls !! p = Some doc_id ↔
     (range_start calls i ≤ p < range_start calls i + length chunks)%nat) ∧
  (chunks ≠ [] → start_idx_from (tag_layout calls) doc_id 0 = range_start calls i).
Proof.
  intros Hnd Hi. destruct (calls_split _ _ _ _ _ Hnd Hi) as (Hsplit & Hb & Ha).
  unfold range_start. split.
  - intros p. rewrite Hsplit at 1. by apply tag_layout_range.
  - intros Hne. rewrite Hsplit at 1. rewrite tag_layout_app, tag_layout_cons. simpl.
    destruct chunks as [|c chunks]; [done|]. simpl.
    rewrite start_idx_from_first; [done|].
    intros Hin. by apply Hb, tag_layout_elem.
Qed.

(** C3: starting from an empty index, tag sequence and registry, after
    calls of [add_document] that all return, with pairwise distinct
    [doc_id]s: the index holds as many vectors as there are tags, and as
    many as the chunk counts of the registered documents add up to; the
    positions tagged with the [doc_id] of call [i] are exactly the range
    that starts at the length the tag sequence had when the call was made
    and is as long as its chunk list; [_get_doc_start_idx] finds that
    start; the range of an earlier call ends before the range of a later
    call starts. *)
Theorem add_all_index_layout (w0 w : World) (calls : list call) :
  index (store w0) = [] → doc_ids (store w0) = [] → metadata (store w0) = ∅ →
  NoDup calls.*1.*1 →
  add_all calls w0 = (w, Ok ()) →
  length (index (store w)) = length (doc_ids (store w)) ∧
  length (doc_ids (store w)) = chunk_total (metadata (store w)) ∧
  (∀ i doc_id chunks filename, calls !! i = Some (doc_id, chunks, filename) →
     metadata (store w) !! doc_id = Some chunks ∧
     (∀ p : nat, doc_ids (store w) !! p = Some doc_id ↔
        (range_start calls i ≤ p < range_start calls i + length chunks)%nat) ∧
     (chunks ≠ [] → _get_doc_start_idx (store w) doc_id = range_start calls i)) ∧
  (∀ i j ci cj, (i < j)%nat → calls !! i = Some ci → calls !! j = Some cj →
     (range_start calls i + length ci.1.2 ≤ range_start calls j)%nat).
Proof.
  intros Hix Hids Hmd Hnd Hrun.
  destruct (add_all_effect calls w0 w Hrun) as (Hids' & Hlen & Hmd').
  rewrite Hids in Hids'. rewrite Hix in Hlen. rewrite Hmd in Hmd'. simpl in *.
  unfold _get_doc_start_idx. rewrite Hids', Hlen, Hmd'.
  split_and!.
  - done.
  - rewrite chunk_total_registry_after; [|done|by intros; rewrite lookup_empty].
    unfold chunk_total. by rewrite map_fold_empty.
  - intros i doc_id chunks filename Hi.
    destruct (layout_of_call calls i doc_id chunks filename Hnd Hi) as [Hrange Hstart].
    split_and!; [|done|done]. by eapply registry_after_lookup.
  - intros i j ci cj Hlt Hi Hj.
    rewrite <-(range_start_S calls i ci) by done. apply range_start_mono. lia.
Qed.

(** Hence the invariant of the data model holds after such calls. *)
Lemma add_all_store_inv (w0 w : World) (calls : list call) :
  index (store w0) = [] → doc_ids (store w0) = [] → metadata (store w0) = ∅ →
  NoDup calls.*1.*1 →
  add_all calls w0 = (w, Ok ()) →
  store_inv (store w).
Proof.
  intros Hix Hids Hmd Hnd Hrun.
  destruct (add_all_effect calls w0 w Hrun) as (Hids' & Hlen & Hmd').
  rewrite Hids in Hids'. rewrite Hix in Hlen. rewrite Hmd in Hmd'. simpl in *.
  split; [by rewrite Hlen, Hids'|]. intros doc_id chunks Hl p.
  unfold _get_doc_start_idx. rewrite Hids'. rewrite Hmd' in Hl.
  destruct (registry_after_inv calls doc_id chunks Hnd Hl) as (i & filename & Hi).
  destruct (layout_of_call calls i doc_id chunks filename Hnd Hi) as [Hrange Hstart].
  destruct chunks as [|c chunks].
  - rewrite Hrange. simpl. lia.
  - rewrite Hstart by done. apply Hrange.
Qed.

End LayoutClaims.

Section SearchFacts.
Context `{G : Gensim} `{F : Faiss}.

(** The loop of [search]: what it returns extends the accumulator by
    chunks read at tagged positions of the label row, in the order of
    the row, with pairwise distinct texts; it stops at [k] results; and
    when it ends with fewer than [k], no tagged position of the row was
    left out except for a text already collected. *)
Lemma search_loop_spec s doc_id k I0 : ∀ results seen res,
  seen = list_to_set results.*1 → NoDup results.*1 →
  search_loop s doc_id k I0 results seen = Ok res →
  ∃ ps new, res = results ++ new ∧
    (Z.of_nat <$> ps) `sublist_of` I0 ∧
    Forall2 (result_at s doc_id) ps new ∧
    NoDup res.*1 ∧
    (Z.of_nat (length results) < k → Z.of_nat (length res) ≤ k) ∧
    (Z.of_nat (length res) < k → ∀ p : nat, Z.of_nat p ∈ I0 →
       doc_ids s !! p = Some doc_id →
       ∃ r, chunk_at s doc_id p = Some r ∧ r.1 ∈ res.*1).
Proof.
  induction I0 as [|idx rest IH]; intros results seen res Hseen Hnd Hrun.
  - injection Hrun as <-. exists [], []. rewrite app_nil_r.
    split_and!; try done.
    + lia.
    + intros _ p Hp. by apply elem_of_nil in Hp.
  - simpl in Hrun.
    destruct (bool_decide (0 ≤ idx) && bool_decide (idx < Z.of_nat (length (doc_ids s)))) eqn:Hguard.
    2:{ destruct (IH _ _ _ Hseen Hnd Hrun) as (ps & new & -> & Hsub & Hall & Hnd' & Hlen & Hcomp).
        exists ps, new. split_and!; try done.
        - by apply sublist_cons.
        - intros Hlt p Hp Htag. apply elem_of_cons in Hp as [Hp|Hp]; [|by apply Hcomp].
          exfalso. apply lookup_lt_Some in Htag.
          apply andb_false_iff in Hguard as [Hg|Hg]; apply bool_decide_eq_false in Hg; lia. }
    apply andb_true_iff in Hguard as [Hg1 Hg2].
    apply bool_decide_eq_true in Hg1, Hg2.
    destruct (doc_ids s !! Z.to_nat idx) as [rid|] eqn:Hrid; [|done].
    destruct (bool_decide (rid = doc_id)) eqn:Hsame.
    2:{ apply bool_decide_eq_false in Hsame.
        destruct (IH _ _ _ Hseen Hnd Hrun) as (ps & new & -> & Hsub & Hall & Hnd' & Hlen & Hcomp).
        exists ps, new. split_and!; try done.
        - by apply sublist_cons.
        - intros Hlt p Hp Htag. apply elem_of_cons in Hp as [Hp|Hp]; [|by apply Hcomp].
          exfalso. subst idx. rewrite Nat2Z.id in Hrid. congruence. }
    apply bool_decide_eq_true in Hsame. subst rid.
    destruct (metadata s !! doc_id) as [entries|] eqn:Hentries; [|done].
    destruct (py_getitem entries _) as [[chunk page]|] eqn:Hget; [|done].
    assert (Hat : result_at s doc_id (Z.to_nat idx) (chunk, page)).
    { split; [done|]. unfold chunk_at. rewrite Hentries. simpl.
      rewrite Z2Nat.id by done. done. }
    destruct (bool_decide (chunk ∉ seen)) eqn:Hnew.
    2:{ apply bool_decide_eq_false in Hnew. apply dec_stable in Hnew.
        destruct (IH _ _ _ Hseen Hnd Hrun) as (ps & new & -> & Hsub & Hall & Hnd' & Hlen & Hcomp).
        exists ps, new. split_and!; try done.
        - by apply sublist_cons.
        - intros Hlt p Hp Htag. apply elem_of_cons in Hp as [Hp|Hp]; [|by apply Hcomp].
          subst idx. rewrite Nat2Z.id in Hat. exists (chunk, page).
          split; [apply Hat|]. simpl. rewrite fmap_app, elem_of_app. left.
          subst seen. by apply elem_of_list_to_set in Hnew. }
    apply bool_decide_eq_true in Hnew.
    assert (Hnd1 : NoDup (results ++ [(chunk, page)]).*1).
    { rewrite fmap_app. simpl. apply NoDup_app. split_and!; [done| |apply NoDup_singleton].
      intros x Hx Hx'. apply list_elem_of_singleton in Hx'. subst x seen.
      apply Hnew. by apply elem_of_list_to_set. }
    assert (Hseen1 : seen ∪ {[chunk]} = list_to_set (results ++ [(chunk, page)]).*1).
    { rewrite fmap_app, list_to_set_app_L. simpl. subst seen.
      by rewrite (right_id_L ∅ (∪)). }
    destruct (bool_decide (k ≤ Z.of_nat (length (results ++ [(chunk, page)])))) eqn:Hfull.
    + apply bool_decide_eq_true in Hfull. injection Hrun as <-.
      exists [Z.to_nat idx], [(chunk, page)]. split_and!; try done.
      * simpl. rewrite Z2Nat.id by done. apply sublist_skip, sublist_nil_l.
      * constructor; [done|constructor].
      * rewrite length_app. simpl. lia.
      * lia.
    + apply bool_decide_eq_false in Hfull.
      destruct (IH _ _ _ Hseen1 Hnd1 Hrun) as (ps & new & -> & Hsub & Hall & Hnd' & Hlen & Hcomp).
      exists (Z.to_nat idx :: ps), ((chunk, page) :: new).
      rewrite <-app_assoc in *. simpl in *. split_and!; try done.
      * rewrite Z2Nat.id by done. by apply sublist_skip.
      * by constructor.
      * intros _. apply Hlen. lia.
      * intros Hlt p Hp Htag. apply elem_of_cons in Hp as [Hp|Hp]; [|by apply Hcomp].
        subst idx. rewrite Nat2Z.id in Hat. exists (chunk, page).
        split; [apply Hat|]. simpl. rewrite fmap_app, elem_of_app. right. left.
Qed.




(** When the index holds no more vectors than there are entries in the
    row, the row holds every position of the index, whatever the query. *)
Lemma knn_covers ix q n idx :
  (length ix ≤ n)%nat → 0 ≤ idx →
  idx ∈ knn ix q n ↔ (Z.to_nat idx < length ix)%nat.
Proof.
  intros Hn Hidx. split.
  - intros Hin. apply knn_valid in Hin. lia.
  - intros Hlt. rewrite <-(Z2Nat.id idx) by done. by apply knn_cover.
Qed.

Lemma index_search_Ok ix q n I0 :
  index_search ix q n = Ok I0 ↔ n ≠ 0%nat ∧ I0 = knn ix q n.
Proof.
  unfold index_search. case_bool_decide; split; try done.
  - by intros [? _].
  - by intros [= <-].
  - by intros [_ ->].
Qed.

End SearchFacts.

Section SearchClaims.
Context `{G : Gensim} `{F : Faiss}.

(** Unfolding [search] on a registered document. *)
Lemma search_known s query doc_id k res :
  search s query doc_id k = Ok res →
  (exists_ s doc_id = false ∧ res = []) ∨
  ∃ qe, exists_ s doc_id = true ∧ embed (embeddings s) query = Ok qe ∧
        doc_ids s ≠ [] ∧
        search_loop s doc_id k (knn (index s) qe (length (doc_ids s))) [] ∅ = Ok res.
Proof.
  unfold search. destruct (exists_ s doc_id); simpl.
  - destruct (embed _ _) as [qe|x]; simpl; [|done].
    destruct (index_search _ _ _) as [I0|x] eqn:HI0; simpl; [|done].
    apply index_search_Ok in HI0 as [Hn ->].
    intros Hrun. right. exists qe. split_and!; try done. by destruct (doc_ids s).
  - intros [= <-]. by left.
Qed.


Lemma py_getitem_elem {A} (l : list A) i x : py_getitem l i = Some x → x ∈ l.
Proof.
  unfold py_getitem. repeat case_bool_decide; try done; apply list_elem_of_lookup_2.
Qed.

Lemma elem_of_available s doc_id text :
  text ∈ available s doc_id ↔ ∃ (p : nat) r, result_at s doc_id p r ∧ r.1 = text.
Proof.
  unfold available, tagged_text, result_at.
  rewrite elem_of_list_to_set, list_elem_of_omap. split.
  - intros (p & _ & Hp). case_bool_decide as Htag; [|done].
    destruct (chunk_at s doc_id p) as [r|] eqn:Hat; [|done].
    simpl in Hp. injection Hp as <-. by exists p, r.
  - intros (p & r & [Htag Hat] & <-). exists p. split.
    + apply elem_of_seq. apply lookup_lt_Some in Htag. lia.
    + rewrite bool_decide_eq_true_2 by done. by rewrite Hat.
Qed.

(** Under the invariant, the tagged positions of a registered document
    have chunks, and every chunk of the document sits at one of them. *)
Lemma store_inv_chunk_at s doc_id entries :
  store_inv s → metadata s !! doc_id = Some entries →
  (∀ p : nat, doc_ids s !! p = Some doc_id → is_Some (chunk_at s doc_id p)) ∧
  (∀ c, c ∈ entries → ∃ p : nat, doc_ids s !! p = Some doc_id ∧
                               (p < length (index s))%nat ∧
                               chunk_at s doc_id p = Some c).
Proof.
  intros [Hlen Hrange] Hentries. specialize (Hrange _ _ Hentries).
  unfold chunk_at. rewrite Hentries. simpl. split.
  - intros p Hp. apply Hrange in Hp. unfold py_getitem.
    rewrite bool_decide_eq_true_2 by lia. apply lookup_lt_is_Some. lia.
  - intros c Hc. apply list_elem_of_lookup in Hc as [j Hj].
    pose proof (lookup_lt_Some _ _ _ Hj) as Hlt.
    exists (_get_doc_start_idx s doc_id + j)%nat.
    assert (Htag : doc_ids s !! (_get_doc_start_idx s doc_id + j)%nat = Some doc_id)
      by (apply Hrange; lia).
    split_and!; [done| |].
    + rewrite Hlen. by eapply lookup_lt_Some.
    + unfold py_getitem. rewrite bool_decide_eq_true_2 by lia.
      rewrite <-Hj. f_equal. lia.
Qed.

(** On a store that satisfies the invariant, the texts available for a
    registered document are the texts of its chunk list. *)
Lemma available_registry s doc_id entries :
  store_inv s → metadata s !! doc_id = Some entries →
  available s doc_id = list_to_set entries.*1.
Proof.
  intros Hinv Hentries.
  destruct (store_inv_chunk_at s doc_id entries Hinv Hentries) as [_ Hcover].
  apply set_eq. intros text.
  rewrite elem_of_available, elem_of_list_to_set, list_elem_of_fmap. split.
  - intros (p & r & [_ Hat] & <-). exists r. split; [done|].
    unfold chunk_at in Hat. rewrite Hentries in Hat. by eapply py_getitem_elem.
  - intros (c & -> & Hc). destruct (Hcover c Hc) as (p & Htag & _ & Hat).
    by exists p, c.
Qed.

(** C1 (as the code has it): for [k] positive, [search] returns at most
    [k] results, each read at an index position tagged [doc_id], no two
    with the same chunk text; when the index holds one vector per tag and
    fewer than [k] unique chunk texts are available for [doc_id], every
    one of them is among the results. *)
Theorem search_top_k_of_document (s : FAISSVectorStore) query doc_id k res :
  0 < k →
  search s query doc_id k = Ok res →
  Z.of_nat (length res) ≤ k ∧
  (∀ r, r ∈ res → ∃ p : nat, result_at s doc_id p r) ∧
  NoDup res.*1 ∧
  (length (index s) = length (doc_ids s) →
   Z.of_nat (size (available s doc_id)) < k →
   ∀ text, text ∈ available s doc_id → text ∈ res.*1).
Proof.
  intros Hk Hrun.
  apply search_known in Hrun as [[Hex ->]|(qe & Hex & Hqe & _ & Hrun)].
  { split_and!; [simpl; lia|by intros r ?%elem_of_nil|constructor|].
    intros _ _ text Ht. exfalso.
    apply elem_of_available in Ht as (p & r & [_ Hat] & _).
    unfold chunk_at, exists_ in *. apply bool_decide_eq_false in Hex.
    destruct (metadata s !! doc_id); [by destruct Hex|done]. }
  apply search_loop_spec in Hrun
    as (ps & new & -> & Hsub & Hall & Hnd & Hlen & Hcomp); [|done|constructor].
  simpl in *.
  assert (Hfrom : ∀ r, r ∈ new → ∃ p : nat, result_at s doc_id p r).
  { intros r Hr. apply list_elem_of_lookup in Hr as [i Hi].
    destruct (Forall2_lookup_r _ _ _ _ _ Hall Hi) as (p & _ & Hp). eauto. }
  split_and!; [by apply Hlen|done|done|].
  intros Hlen' Hsize text Htext.
  assert (Hshort : Z.of_nat (length new) < k).
  { assert (length new.*1 ≤ size (available s doc_id))%nat; [|rewrite length_fmap in *; lia].
    rewrite <-(size_list_to_set (C:=gset string)) by done.
    apply subseteq_size. intros t Ht. apply elem_of_list_to_set in Ht.
    apply list_elem_of_fmap in Ht as (r & -> & Hr).
    destruct (Hfrom r Hr) as [p Hp]. apply elem_of_available. eauto. }
  apply elem_of_available in Htext as (p & c & [Htag Hat] & <-).
  destruct (Hcomp Hshort p) as (r & Hr & Hin); [|done|].
  + apply knn_cover; [lia|]. rewrite Hlen'. by eapply lookup_lt_Some.
  + rewrite Hat in Hr. by injection Hr as <-.
Qed.

End SearchClaims.

(** * The statements on the concrete run *)

Section Runs.
#[local] Existing Instance Stub.gensim.
#[local] Existing Instance Stub.faiss.

Lemma demo_add_all : add_all Demo.calls Demo.w0 = (Demo.w, Ok ()).
Proof. vm_compute. reflexivity. Qed.

Lemma demo_nodup : NoDup Demo.calls.*1.*1.
Proof. apply (bool_decide_unpack _). vm_compute. exact I. Qed.

Lemma demo_store_inv : store_inv (store Demo.w).
Proof.
  apply (add_all_store_inv Demo.w0 Demo.w Demo.calls);
    [reflexivity|reflexivity|reflexivity|apply demo_nodup|apply demo_add_all].
Qed.

Lemma demo_reachable : reachable Demo.w.
Proof.
  apply (reachable_add (run_adds (take 1 Demo.calls) Demo.w0) "B" [("x", 1)] "b.pdf");
    [|vm_compute; reflexivity].
  apply (reachable_add Demo.w0 "A" [("x x y", 1); ("y z", 2); ("x x y", 3)] "a.pdf");
    [apply reachable_startup|vm_compute; reflexivity].
Qed.

Lemma search_top_k_witness :
  search (store Demo.w) "x" "A" 5 = Ok [("y z", 2); ("x x y", 1)] ∧
  ∀ text, text ∈ available (store Demo.w) "A" →
          text ∈ [("y z", 2); ("x x y", 1)].*1.
Proof.
  assert (Hrun : search (store Demo.w) "x" "A" 5 = Ok [("y z", 2); ("x x y", 1)])
    by (vm_compute; reflexivity).
  split; [exact Hrun|].
  destruct (search_top_k_of_document (store Demo.w) "x" "A" 5 [("y z", 2); ("x x y", 1)])
    as (_ & _ & _ & Hall); [lia|exact Hrun|].
  apply Hall; [reflexivity|vm_compute; reflexivity].
Defined.

(** The store a process starts with over a disk that holds the registry
    file but no index file: [_load_state] returns [True], the registry and
    the tags are loaded, the index is empty. *)
Example index_less_startup :
  _load_state (VectorStore.__init__ Demo.index_less_disk)
    = (startup Demo.index_less_disk, Ok true) ∧
  index (store (startup Demo.index_less_disk)) = [] ∧
  doc_ids (store (startup Demo.index_less_disk)) = ["A"; "A"; "A"; "B"] ∧
  metadata (store (startup Demo.index_less_disk)) !! "A"
    = Some [("x x y", 1); ("y z", 2); ("x x y", 3)] ∧
  search (store (startup Demo.index_less_disk)) "x" "A" 5 = Ok [].
Proof. vm_compute. done. Qed.

(** C1 as stated fails on it: two unique chunk texts are available for
    ["A"], fewer than [k = 5], and [search] returns none of them. *)
Lemma search_without_index_misses_chunks :
  ¬ (∀ (G : Gensim) (F : Faiss) (s : FAISSVectorStore) query doc_id k res,
       0 < k →
       search s query doc_id k = Ok res →
       Z.of_nat (size (available s doc_id)) < k →
       ∀ text, text ∈ available s doc_id → text ∈ res.*1).
Proof.
  intros Hclaim.
  specialize (Hclaim Stub.gensim Stub.faiss (store (startup Demo.index_less_disk))
                     "x" "A" 5 [] ltac:(lia)).
  assert (Hin : "y z" ∈ ([] : list (string * Z)).*1); [|by apply elem_of_nil in Hin].
  apply Hclaim.
  - vm_compute. reflexivity.
  - vm_compute. reflexivity.
  - apply elem_of_available. exists 1%nat, ("y z", 2). split; [|done].
    split; vm_compute; reflexivity.
Qed.



Lemma add_all_layout_witness :
  length (index (store Demo.w)) = length (doc_ids (store Demo.w)) ∧
  length (doc_ids (store Demo.w)) = chunk_total (metadata (store Demo.w)).
Proof.
  destruct (add_all_index_layout Demo.w0 Demo.w Demo.calls) as (H1 & H2 & _);
    [reflexivity|reflexivity|reflexivity|apply demo_nodup|apply demo_add_all|].
  exact (conj H1 H2).
Defined.

Lemma save_load_witness :
  store (startup (disk (_save_state Demo.w).1)) = store Demo.w.
Proof.
  destruct (save_load_roundtrip Demo.w) as (_ & _ & _ & Hreach).
  apply Hreach, demo_reachable.
Defined.

Lemma keeps_trained_model_witness :
  model (embeddings (store (run_adds [("C", [("z", 1)], "c.pdf")] Demo.w)))
    = model (embeddings (store Demo.w)).
Proof.
  destruct fit_guard_is_in_add_document as [_ Hkeep].
  destruct (Hkeep [("C", [("z", 1)], "c.pdf")] Demo.w
              (Stub.mkModel 2 ["x"; "y"] 3 true)) as [Hm _].
  - vm_compute. reflexivity.
  - rewrite Hm. vm_compute. reflexivity.
Defined.

(** C5 as stated fails: called on a trained model, [fit] replaces it.
    Here the model trained on document ["A"], with vocabulary [x], [y],
    is replaced by one trained on ["z z"], with vocabulary [z]. *)
Lemma fit_on_trained_model_retrains :
  ¬ (∀ (G : Gensim) (texts : list string) (e : Doc2VecEmbeddings) (d : Disk) (m : Doc2Vec),
       model e = Some m → model (fit texts (e, d)).1.1 = Some m).
Proof.
  intros Hnoop.
  specialize (Hnoop Stub.gensim ["z z"] (embeddings (store Demo.w)) (disk Demo.w)
                    (Stub.mkModel 2 ["x"; "y"] 3 true) eq_refl).
  vm_compute in Hnoop. discriminate Hnoop.
Qed.




Lemma unknown_doc_id_witness :
  exists_ (store Demo.w) "C" = false ∧
  get_filename (store Demo.w) "C" = None ∧
  ∀ query k, search (store Demo.w) query "C" k = Ok [].
Proof.
  apply (unknown_doc_id empty_disk Demo.calls "C").
  - intros state Hstate. discriminate Hstate.
  - apply (bool_decide_unpack _). vm_compute. exact I.
Defined.

Lemma add_document_registers_witness :
  exists_ (store Demo.w) "B" = true ∧ get_filename (store Demo.w) "B" = Some "b.pdf".
Proof.
  apply (add_document_registers "B" [("x", 1)] "b.pdf"
           (run_adds [("A", [("x x y", 1); ("y z", 2); ("x x y", 3)], "a.pdf")] Demo.w0)
           Demo.w).
  vm_compute. reflexivity.
Defined.

(** What the index kept by a failed load does to later calls: the stale
    vector sits at position 0, the vectors of the new document at 1 and 2
    under the tags of positions 0 and 1; a query equal to the second chunk
    gets the first chunk, and the second is never returned. *)
Example stale_index_misattributes :
  index (store Demo.after_stale) = [[0; 2]; [2; 0]; [0; 2]] ∧
  doc_ids (store Demo.after_stale) = ["A"; "A"] ∧
  search (store Demo.after_stale) "z z" "A" 2 = Ok [("x x", 1)].
Proof. vm_compute. done. Qed.

Lemma add_document_raise_witness :
  exists_ (store Demo.failing.1) "A" = true ∧
  index (store Demo.failing.1) = [] ∧
  doc_ids (store Demo.failing.1) = [] ∧
  length (doc_ids (store Demo.failing.1)) ≠ chunk_total (metadata (store Demo.failing.1)).
Proof.
  destruct (add_document_raise_leaves_registry "A" [("x y", 1)] "a.pdf" Demo.w0
              Demo.failing.1
              (RuntimeError "you must first build vocabulary before training the model"))
    as (Hex & _ & _ & Hix & Hids & Hbreak).
  - vm_compute. reflexivity.
  - split_and!; [exact Hex|exact Hix|exact Hids|].
    apply Hbreak; [reflexivity|discriminate|reflexivity|reflexivity].
Defined.
End Runs.

(** * Further properties of the store *)

Section SearchExtras.
Context `{G : Gensim} `{F : Faiss}.

(** [_get_doc_start_idx] returns the first position tagged [doc_id]; for
    a [doc_id] with no tag it returns 0, the same value as for a document
    whose range starts the tag sequence. *)
Theorem get_doc_start_idx_first (s : FAISSVectorStore) (doc_id : string) :
  (doc_id ∈ doc_ids s →
     doc_ids s !! _get_doc_start_idx s doc_id = Some doc_id ∧
     ∀ q : nat, (q < _get_doc_start_idx s doc_id)%nat → doc_ids s !! q ≠ Some doc_id) ∧
  (doc_id ∉ doc_ids s → _get_doc_start_idx s doc_id = 0%nat).
Proof.
  unfold _get_doc_start_idx. split.
  - intros Hin. apply list_elem_of_split_l in Hin as (l1 & l2 & Heq & Hnotin).
    rewrite Heq, start_idx_from_first by done. simpl. split.
    + by rewrite list_lookup_middle.
    + intros q Hq Hl. rewrite lookup_app_l in Hl by done.
      apply Hnotin. by eapply list_elem_of_lookup_2.
  - apply start_idx_from_absent.
Qed.

Lemma search_loop_small_k s doc_id k I0 : ∀ results seen,
  k ≤ 1 →
  search_loop s doc_id k I0 results seen = search_loop s doc_id 1 I0 results seen.
Proof.
  induction I0 as [|idx rest IH]; intros results seen Hk; simpl; [done|].
  repeat case_match; auto.
  all: exfalso; repeat match goal with
    | H : bool_decide _ = true |- _ => apply bool_decide_eq_true in H
    | H : bool_decide _ = false |- _ => apply bool_decide_eq_false in H
    end; rewrite length_app in *; simpl in *; lia.
Qed.

(** The loop of [search] tests [len(results) >= k] only after it has
    appended a result: every [k] below 1, zero and the negative ones
    included, gives what [k = 1] gives. *)
Theorem search_nonpositive_k (s : FAISSVectorStore) query doc_id k :
  k ≤ 1 →
  search s query doc_id k = search s query doc_id 1.
Proof.
  intros Hk. unfold search. destruct (negb _); [done|].
  destruct (embed _ _); simpl; [|done].
  destruct (index_search _ _ _); simpl; [|done]. by apply search_loop_small_k.
Qed.

(** The loop, started with nothing collected, on a row without tagged
    labels. *)
Lemma search_loop_no_tagged s doc_id k I0 : ∀ results seen,
  (∀ idx, idx ∈ I0 → ¬ tagged s doc_id idx) →
  search_loop s doc_id k I0 results seen = Ok results.
Proof.
  induction I0 as [|idx rest IH]; intros results seen Hno; simpl; [done|].
  assert (Hrest : search_loop s doc_id k rest results seen = Ok results).
  { apply IH. intros i Hi. apply Hno. by right. }
  destruct (bool_decide (0 ≤ idx) && bool_decide (idx < Z.of_nat (length (doc_ids s))))
    eqn:Hguard; [|done].
  apply andb_true_iff in Hguard as [Hg1 Hg2].
  apply bool_decide_eq_true in Hg1, Hg2.
  destruct (doc_ids s !! Z.to_nat idx) as [rid|] eqn:Hrid.
  2:{ apply lookup_ge_None in Hrid. lia. }
  case_bool_decide as Hsame; [|done]. subst rid.
  exfalso. apply (Hno idx); [left|]. split; [lia|done].
Qed.

(** The first result is read at the first tagged label of the row. *)
Lemma search_loop_first s doc_id k I0 res :
  search_loop s doc_id k I0 [] ∅ = Ok res →
  (res = [] ∧ ∀ idx, idx ∈ I0 → ¬ tagged s doc_id idx) ∨
  (∃ l1 (p : nat) l2 r rest,
     I0 = l1 ++ Z.of_nat p :: l2 ∧ res = r :: rest ∧ result_at s doc_id p r ∧
     ∀ idx, idx ∈ l1 → ¬ tagged s doc_id idx).
Proof.
  induction I0 as [|idx I0 IH]; simpl; intros Hrun.
  - injection Hrun as <-. left. split; [done|]. by intros idx ?%elem_of_nil.
  - assert (Hskip : ¬ tagged s doc_id idx → search_loop s doc_id k I0 [] ∅ = Ok res →
      (res = [] ∧ ∀ i, i ∈ idx :: I0 → ¬ tagged s doc_id i) ∨
      (∃ l1 (p : nat) l2 r rest,
         idx :: I0 = l1 ++ Z.of_nat p :: l2 ∧ res = r :: rest ∧ result_at s doc_id p r ∧
         ∀ i, i ∈ l1 → ¬ tagged s doc_id i)).
    { intros Hnt Hrun'. destruct (IH Hrun') as [[-> Hno]|(l1 & p & l2 & r & rest & -> & -> & Hat & Hno)].
      - left. split; [done|]. intros i [->|Hi]%elem_of_cons; auto.
      - right. exists (idx :: l1), p, l2, r, rest. split_and!; try done.
        intros i [->|Hi]%elem_of_cons; auto. }
    destruct (bool_decide (0 ≤ idx) && bool_decide (idx < Z.of_nat (length (doc_ids s))))
      eqn:Hguard.
    2:{ apply Hskip; [|done]. intros [Hr _].
        apply andb_false_iff in Hguard as [Hg|Hg]; apply bool_decide_eq_false in Hg; lia. }
    apply andb_true_iff in Hguard as [Hg1 Hg2].
    apply bool_decide_eq_true in Hg1, Hg2.
    destruct (doc_ids s !! Z.to_nat idx) as [rid|] eqn:Hrid; [|done].
    case_bool_decide as Hsame.
    2:{ apply Hskip; [|done]. intros [_ Ht]. congruence. }
    subst rid.
    destruct (metadata s !! doc_id) as [entries|] eqn:Hentries; [|done].
    destruct (py_getitem entries _) as [[chunk page]|] eqn:Hget; [|done].
    assert (Hat : result_at s doc_id (Z.to_nat idx) (chunk, page)).
    { split; [done|]. unfold chunk_at. rewrite Hentries. simpl.
      rewrite Z2Nat.id by done. done. }
    rewrite bool_decide_eq_true_2 in Hrun by set_solver.
    right. exists [], (Z.to_nat idx), I0, (chunk, page).
    case_bool_decide.
    + injection Hrun as <-. exists []. rewrite Z2Nat.id by done.
      split_and!; try done. by intros i ?%elem_of_nil.
    + apply search_loop_spec in Hrun as (ps & new & -> & _).
      * exists new. rewrite Z2Nat.id by done. split_and!; try done.
        by intros i ?%elem_of_nil.
      * simpl. by rewrite (left_id_L ∅ (∪)), (right_id_L ∅ (∪)).
      * simpl. apply NoDup_singleton.
Qed.

(** If one call of [search] returned the empty list, so does every
    other call for the same document. *)
Lemma search_empty_any_query (s : FAISSVectorStore) q1 q2 doc_id k1 k2 :
  (length (index s) ≤ length (doc_ids s))%nat →
  search s q1 doc_id k1 = Ok [] →
  search s q2 doc_id k2 = Ok [].
Proof.
  intros Hlen Hrun.
  destruct (exists_ s doc_id) eqn:Hex; [|unfold search; by rewrite Hex].
  apply search_known in Hrun as [[Hex' _]|(qe1 & _ & Hqe1 & Hne & Hrun)]; [congruence|].
  assert (Hqe2 : is_Ok (embed (embeddings s) q2)).
  { unfold embed in *. destruct (model (embeddings s)) as [m|]; [|done].
    eapply infer_vector_uniform. by eexists. }
  destruct Hqe2 as [qe2 Hqe2].
  unfold search. rewrite Hex, Hqe2. simpl.
  unfold index_search. rewrite bool_decide_eq_false_2 by (by destruct (doc_ids s)). simpl.
  apply search_loop_first in Hrun as [[_ Hno]|(? & ? & ? & ? & ? & _ & ? & _)]; [|done].
  apply search_loop_no_tagged. intros idx Hin Ht.
  destruct Ht as [Hr Ht].
  apply (Hno idx); [|done].
  apply knn_covers; [done|lia|].
  by apply knn_covers in Hin; [|done|lia].
Qed.

(** Whether [search] comes back empty depends on the store alone, not on
    the query or on [k] (when the index holds no more vectors than there
    are tags): it does exactly when the document is unknown or no
    position of the index carries its tag. *)
Theorem search_empty_iff (s : FAISSVectorStore) query doc_id k res :
  (length (index s) ≤ length (doc_ids s))%nat →
  search s query doc_id k = Ok res →
  res = [] ↔
    exists_ s doc_id = false ∨
    ∀ p : nat, (p < length (index s))%nat → doc_ids s !! p ≠ Some doc_id.
Proof.
  intros Hlen Hrun.
  apply search_known in Hrun as [[Hex ->]|(qe & Hex & Hqe & _ & Hrun)].
  { split; auto. }
  apply search_loop_first in Hrun
    as [[-> Hno]|(l1 & p & l2 & r & rest & HI & -> & [Htag _] & _)].
  - split; [|done]. intros _. right. intros p Hp Htag.
    apply (Hno (Z.of_nat p)).
    + apply knn_covers; [done|lia|]. by rewrite Nat2Z.id.
    + split; [|by rewrite Nat2Z.id]. apply lookup_lt_Some in Htag. lia.
  - split; [done|]. intros [Hex'|Hno]; [congruence|]. exfalso.
    apply (Hno p); [|done].
    assert (Hin : Z.of_nat p ∈ knn (index s) qe (length (doc_ids s))).
    { rewrite HI, elem_of_app. right. left. }
    apply knn_covers in Hin; [|done|lia]. lia.
Qed.


(** A registered document in a store without tags: once the query is
    embedded, [index.search] is called with [k = 0] and its assertion
    fails. *)
Theorem search_without_tags_raises (s : FAISSVectorStore) query doc_id k :
  exists_ s doc_id = true →
  is_Ok (embed (embeddings s) query) →
  doc_ids s = [] →
  search s query doc_id k = Raise AssertionError.
Proof.
  intros Hex [qe Hqe] Hids. unfold search. rewrite Hex, Hqe, Hids. reflexivity.
Qed.

End SearchExtras.

Section StoreExtras.
Context `{G : Gensim}.

(** One call: the tag sequence and the index grow at the end, by tags of
    the call's own id. *)
Lemma add_document_appends doc_id chunks filename (w : World) :
  ∃ n : nat,
    doc_ids (store (add_document doc_id chunks filename w).1)
      = doc_ids (store w) ++ replicate n doc_id ∧
    index (store w) `prefix_of` index (store (add_document doc_id chunks filename w).1).
Proof.
  destruct (add_document_cases doc_id chunks filename w)
    as (w1 & r & Heq & _ & _ & _ & _ & _ & _ & _ & Hr).
  rewrite Heq. simpl. destruct r as [[]|x].
  - destruct Hr as (m & _ & _ & (es & _ & _ & ->) & -> & _).
    eexists. split; [done|]. by eexists.
  - destruct Hr as (_ & -> & -> & _). exists 0%nat. simpl. by rewrite app_nil_r.
Qed.

(** Ingesting other documents, with calls that return or raise, leaves a
    document alone: its registry entries, its tagged positions and where
    its range starts are the same, and the index and the tag sequence
    only grow at the end. *)
Theorem later_ingestions_preserve (calls : list call) (w : World) (doc_id : string) :
  doc_id ∉ calls.*1.*1 →
  let w' := run_adds calls w in
  metadata (store w') !! doc_id = metadata (store w) !! doc_id ∧
  filenames (store w') !! doc_id = filenames (store w) !! doc_id ∧
  index (store w) `prefix_of` index (store w') ∧
  doc_ids (store w) `prefix_of` doc_ids (store w') ∧
  (∀ p : nat, doc_ids (store w') !! p = Some doc_id ↔ doc_ids (store w) !! p = Some doc_id) ∧
  (doc_id ∈ doc_ids (store w) →
   _get_doc_start_idx (store w') doc_id = _get_doc_start_idx (store w) doc_id).
Proof.
  revert w. induction calls as [|[[doc_id' chunks] filename] calls IH]; intros w Hnotin.
  - simpl. split_and!; done.
  - simpl in *. apply not_elem_of_cons in Hnotin as [Hne Hnotin].
    destruct (IH (add_document doc_id' chunks filename w).1 Hnotin)
      as (Hmd & Hfn & Hix & Hids & Htags & Hstart).
    destruct (add_document_other_id doc_id doc_id' chunks filename w) as [Hmd1 Hfn1]; [done|].
    destruct (add_document_appends doc_id' chunks filename w) as (n & Hids1 & Hix1).
    assert (Htags1 : ∀ p : nat,
      doc_ids (store (add_document doc_id' chunks filename w).1) !! p = Some doc_id ↔
      doc_ids (store w) !! p = Some doc_id).
    { intros p. rewrite Hids1. split.
      - intros Hp. apply lookup_app_Some in Hp as [Hp|[_ Hp]]; [done|].
        apply lookup_replicate in Hp as [? _]. congruence.
      - intros Hp. by apply lookup_app_l_Some. }
    split_and!.
    + by rewrite Hmd.
    + by rewrite Hfn.
    + by etrans.
    + etrans; [|done]. rewrite Hids1. by apply prefix_app_r.
    + intros p. by rewrite Htags.
    + intros Hin. rewrite Hstart.
      * unfold _get_doc_start_idx. rewrite Hids1.
        apply list_elem_of_split_l in Hin as (l1 & l2 & -> & Hl1).
        rewrite <-app_assoc. simpl. by rewrite !start_idx_from_first.
      * rewrite Hids1. apply elem_of_app. by left.
Qed.

(** [add_document] writes [metadata] and [filenames] together: when the
    two tables start with the same keys they keep the same keys, and
    [exists] is true exactly for the ids [get_filename] knows. *)
Theorem registry_tables_have_the_same_keys (calls : list call) (w : World) :
  dom (metadata (store w)) = dom (filenames (store w)) →
  let s := store (run_adds calls w) in
  dom (metadata s) = dom (filenames s) ∧
  ∀ doc_id, exists_ s doc_id = true ↔ is_Some (get_filename s doc_id).
Proof.
  intros Hdom.
  assert (Hdom' : dom (metadata (store (run_adds calls w)))
                  = dom (filenames (store (run_adds calls w)))).
  { revert w Hdom. induction calls as [|[[doc_id chunks] filename] calls IH]; intros w Hdom.
    - done.
    - simpl. apply IH.
      destruct (add_document_cases doc_id chunks filename w)
        as (w1 & r & Heq & Hmd & Hfn & _).
      rewrite Heq. simpl. rewrite Hmd, Hfn, !dom_insert_L. by rewrite Hdom. }
  simpl. split; [done|]. intros doc_id. unfold exists_, get_filename.
  rewrite bool_decide_eq_true, <-!elem_of_dom. by rewrite Hdom'.
Qed.

(** Every [add_document] that returns has saved: a process started over
    the disk it leaves begins with the very same store. *)
Theorem restart_after_add_document doc_id chunks filename (w w' : World) :
  reachable w →
  add_document doc_id chunks filename w = (w', Ok ()) →
  startup (disk w') = w'.
Proof.
  intros Hreach Hadd.
  assert (Hreach' : reachable w') by (by eapply reachable_add).
  destruct (reachable_embeddings w' Hreach') as [He Hdim].
  destruct (add_document_cases doc_id chunks filename w)
    as (w1 & r & Heq & _ & _ & _ & _ & _ & _ & _ & Hr).
  rewrite Hadd in Heq. injection Heq as <- <-.
  destruct Hr as (m & _ & _ & _ & _ & Hfile & Hstate).
  erewrite startup_saved by done.
  destruct w' as [[e dim ix md ids fns] d]. simpl in *. by subst.
Qed.

(** [_load_state] never raises and never writes; it returns [True]
    exactly when no file that is present fails to load (an unreadable
    index or registry file, or a registry without one of its three keys,
    gives [False]); with both files missing it changes nothing and
    returns [True]. *)
Theorem load_state_result (w : World) :
  ∃ w' b, _load_state w = (w', Ok b) ∧
    disk w' = disk w ∧
    embeddings (store w') = embeddings (store w) ∧
    (b = true ↔
       faiss_index (disk w) ≠ Some Unreadable ∧
       ∀ f, vector_store_state (disk w) = Some f →
            ∃ md ids fns, f = Readable (mkPickled (Some md) (Some ids) (Some fns))) ∧
    (faiss_index (disk w) = None → vector_store_state (disk w) = None →
       w' = w ∧ b = true).
Proof.
  destruct w as [[e dim ix md ids fns] d]. unfold _load_state. monad_unfold. simpl.
  destruct (faiss_index d) as [[ix'|]|] eqn:Hix,
           (vector_store_state d) as [[[[md'|] [ids'|] [fns'|]]|]|] eqn:Hst; simpl;
    do 2 eexists; (split; [reflexivity|]); simpl; split_and!; try done.
  all: try (split; [intros _; split; [done|]; intros f [= <-]; eauto|done]).
  all: try (split; [done|]; intros [Hne Hf]; try done;
            destruct (Hf _ eq_refl) as (? & ? & ? & ?); done).
  all: try (split; [intros _; split; [done|]; intros f; done|done]).
Qed.

(** [fit] assigns [self.model] before it builds the vocabulary and
    trains.  When the [fit] of the first ingestion raises, [add_document]
    raises the same exception and the store is left with a model object
    that was never trained and never saved; since [add_document] trains
    only while [self.embeddings.model] is unset, no later call trains or
    saves a model in this process. *)
Theorem failed_fit_disables_training doc_id chunks filename (w : World)
    (e' : Doc2VecEmbeddings) (d' : Disk) (x : exn) (calls : list call) :
  model (embeddings (store w)) = None →
  fit chunks.*1 (embeddings (store w), disk w) = ((e', d'), Raise x) →
  ∃ w' m, add_document doc_id chunks filename w = (w', Raise x) ∧
    embeddings (store w') = e' ∧
    model e' = Some m ∧
    disk w' = disk w ∧
    model (embeddings (store (run_adds calls w'))) = Some m ∧
    doc2vec_model (disk (run_adds calls w')) = doc2vec_model (disk w).
Proof.
  intros Hnone Hfit.
  destruct (fit_cases (chunks.*1) (embeddings (store w)) (disk w))
    as (e1 & d1 & r & Heq & _ & _ & _ & _ & _ & m & Hm & Hr).
  rewrite Hfit in Heq. injection Heq as <- <- <-. subst d'.
  destruct w as [[e dim ix md ids fns] d]. simpl in *.
  eexists _, m. split.
  { unfold add_document. monad_unfold. simpl. rewrite Hnone. simpl. rewrite Hfit.
    simpl. reflexivity. }
  simpl.
  match goal with
  | |- context [run_adds calls ?w1] =>
      destruct (run_adds_keeps_trained_model calls w1 m) as [Hkeep Hfile]; [exact Hm|]
  end.
  split_and!; done.
Qed.

(** With a model set, [add_document] on an empty chunk list raises at
    [index.add]: the document is registered with no chunks, and the
    index, the tags and the disk are as before. *)
Theorem add_document_without_chunks doc_id filename (w : World) (m : Doc2Vec) :
  model (embeddings (store w)) = Some m →
  ∃ w', add_document doc_id [] filename w
          = (w', Raise (ValueError "not enough values to unpack (expected 2, got 1)")) ∧
        exists_ (store w') doc_id = true ∧
        metadata (store w') !! doc_id = Some [] ∧
        get_filename (store w') doc_id = Some filename ∧
        embeddings (store w') = embeddings (store w) ∧
        index (store w') = index (store w) ∧
        doc_ids (store w') = doc_ids (store w) ∧
        disk w' = disk w.
Proof.
  intros Hm. destruct w as [[e dim ix md ids fns] d]. simpl in Hm.
  unfold add_document, embed_batch. monad_unfold. simpl. repeat (rewrite Hm; simpl).
  eexists. split; [reflexivity|]. simpl.
  unfold exists_, get_filename. simpl. rewrite !lookup_insert_eq.
  split_and!; done.
Qed.

(** A [fit] that returns has saved the model: a new
    [Doc2VecEmbeddings] constructed with the same parameters over the disk
    it leaves is the object [fit] left. *)
Theorem fit_then_construct (texts : list string) (e e' : Doc2VecEmbeddings) (d d' : Disk) :
  fit texts (e, d) = ((e', d'), Ok ()) →
  Embeddings.__init__ (vector_size e) (min_count e) (epochs e) d' = (e', d').
Proof.
  intros Hfit.
  destruct (fit_cases texts e d) as (e1 & d1 & r & Heq & Hvs & Hmc & Hep & _ & _ & m & Hm & Hr).
  rewrite Hfit in Heq. injection Heq as <- <- <-.
  rewrite embeddings_init. unfold persisted_model. rewrite Hr.
  destruct e' as [vs mc ep mo]. simpl in *. by subst.
Qed.

(** The constructor of [Doc2VecEmbeddings] never raises and never writes:
    the model is set exactly when the model file is present and loads; a
    missing or unreadable file leaves the object untrained. *)
Theorem constructor_loads_model (vs mc ep : nat) (d : Disk) :
  let '(e, d') := Embeddings.__init__ vs mc ep d in
  d' = d ∧ vector_size e = vs ∧ min_count e = mc ∧ epochs e = ep ∧
  ∀ m, model e = Some m ↔ doc2vec_model d = Some (Readable m).
Proof.
  rewrite embeddings_init. simpl. split_and!; try done.
  intros m. unfold persisted_model.
  destruct (doc2vec_model d) as [[m'|]|]; split; congruence.
Qed.

(** Ingesting a [doc_id] a second time overwrites its chunk list but
    keeps its old tags and appends new ones: on a store that satisfied
    the invariant of the data model, for a document that had at least one
    chunk, the invariant no longer holds afterwards. *)
Theorem reingestion_breaks_invariant doc_id old chunks filename (w w' : World) :
  store_inv (store w) →
  metadata (store w) !! doc_id = Some old → old ≠ [] →
  add_document doc_id chunks filename w = (w', Ok ()) →
  ¬ store_inv (store w').
Proof.
  intros [Hlen Hrange] Hold Hne Hadd [Hlen' Hrange'].
  destruct (add_document_cases doc_id chunks filename w)
    as (w1 & r & Heq & Hmd & _ & _ & _ & _ & _ & _ & Hr).
  rewrite Hadd in Heq. injection Heq as <- <-.
  destruct Hr as (m & _ & _ & _ & Hids & _).
  specialize (Hrange _ _ Hold).
  assert (Hnew : metadata (store w') !! doc_id = Some chunks)
    by (by rewrite Hmd, lookup_insert_eq).
  specialize (Hrange' _ _ Hnew).
  set (start := _get_doc_start_idx (store w) doc_id) in *.
  assert (Hstart : doc_ids (store w) !! start = Some doc_id).
  { apply Hrange. assert (length old ≠ 0)%nat by (by destruct old). lia. }
  assert (Hstart' : _get_doc_start_idx (store w') doc_id = start).
  { unfold start, _get_doc_start_idx. rewrite Hids.
    assert (Hin : doc_id ∈ doc_ids (store w)) by (by eapply list_elem_of_lookup_2).
    apply list_elem_of_split_l in Hin as (l1 & l2 & -> & Hl1).
    rewrite <-app_assoc. simpl. by rewrite !start_idx_from_first. }
  rewrite Hstart' in Hrange'.
  pose proof (lookup_lt_Some _ _ _ Hstart) as Hlt.
  destruct chunks as [|c chunks].
  - assert (Hs : doc_ids (store w') !! start = Some doc_id).
    { rewrite Hids. by apply lookup_app_l_Some. }
    apply Hrange' in Hs. simpl in Hs. lia.
  - assert (Hlast : doc_ids (store w') !! (length (doc_ids (store w)) + length chunks)%nat
                    = Some doc_id).
    { rewrite Hids, lookup_app_r by lia. apply lookup_replicate. split; [done|]. simpl. lia. }
    apply Hrange' in Hlast. simpl in Hlast. lia.
Qed.

End StoreExtras.

(** * The callers: strings, pdf_processor.py, main.py, agents.py *)

Section StrFacts.
Import PyStr.

Lemma lstrip_not_space (l : list Ascii.ascii) c l' :
  lstrip l = c :: l' → isspace c = false.
Proof.
  induction l as [|x l IH]; simpl; [done|].
  destruct (isspace x) eqn:Hx; [done|]. by intros [= <- _].
Qed.

Lemma lstrip_fixed (l : list Ascii.ascii) c l' :
  l = c :: l' → isspace c = false → lstrip l = l.
Proof. intros -> Hc. simpl. by rewrite Hc. Qed.

Lemma lstrip_suffix (l : list Ascii.ascii) : lstrip l `suffix_of` l.
Proof.
  induction l as [|x l IH]; simpl; [done|].
  destruct (isspace x); [by apply suffix_cons_r|done].
Qed.

Lemma strip_chars_idemp (l : list Ascii.ascii) :
  strip_chars (strip_chars l) = strip_chars l.
Proof.
  unfold strip_chars.
  set (a := lstrip l). set (b := lstrip (reverse a)).
  destruct b as [|c b'] eqn:Hb; [done|].
  assert (Hc : isspace c = false) by (by eapply lstrip_not_space).
  destruct (lstrip_suffix (reverse a)) as [k Hk]. fold b in Hk. rewrite Hb in Hk.
  (* the last character of [c :: b'] is the first of [a] *)
  assert (Ha : a = reverse (c :: b') ++ reverse k).
  { rewrite <-reverse_app, <-Hk. by rewrite reverse_involutive. }
  destruct (reverse (c :: b')) as [|d r] eqn:Hr.
  { apply (f_equal length) in Hr. rewrite length_reverse in Hr. done. }
  assert (Hd : isspace d = false).
  { apply (lstrip_not_space l d (r ++ reverse k)). fold a. by rewrite Ha. }
  rewrite (lstrip_fixed (d :: r) d r) by done.
  rewrite <-Hr, reverse_involutive.
  by rewrite (lstrip_fixed (c :: b') c b').
Qed.

Lemma strip_idemp (s : string) : strip (strip s) = strip s.
Proof.
  unfold strip. by rewrite String.list_ascii_of_string_of_list_ascii, strip_chars_idemp.
Qed.
End StrFacts.


Section PdfFacts.
Context `{G : Gensim}.
Context (str : exception → string).
Import PdfProcessor.

Lemma paragraphs_stripped text p :
  p ∈ paragraphs text → PyStr.strip p = p ∧ p ≠ "".
Proof.
  unfold paragraphs. rewrite list_elem_of_omap. intros (q & _ & Hq).
  case_bool_decide as Hne; [done|]. injection Hq as <-.
  split; [apply strip_idemp|done].
Qed.

Lemma page_chunks_spec page_num text c :
  c ∈ page_chunks page_num text →
  (10 ≤ length (PyStr.split c.1))%nat ∧ PyStr.strip c.1 = c.1 ∧
  c.2 = Z.of_nat page_num + 1.
Proof.
  unfold page_chunks. rewrite list_elem_of_fmap. intros (p & -> & Hp).
  apply list_elem_of_filter in Hp as [Hwords Hp]. simpl.
  by destruct (paragraphs_stripped _ _ Hp).
Qed.

(** Blocks whose page numbers follow their rank are in page order. *)
Lemma join_imap_pages {A} (f : nat → A → list (string * Z)) (n : nat) (l : list A) :
  (∀ i x c, c ∈ f i x → c.2 = Z.of_nat (n + i) + 1) →
  StronglySorted Z.le (mjoin (imap f l)).*2 ∧
  Forall (λ c, Z.of_nat n + 1 ≤ c.2 ≤ Z.of_nat (n + length l)) (mjoin (imap f l)).
Proof.
  revert f n. induction l as [|x l IH]; intros f n Hf.
  - simpl. split; constructor.
  - rewrite imap_cons. simpl.
    destruct (IH (f ∘ S) (S n)) as [IHs IHb].
    { intros i y c Hc. rewrite (Hf (S i) y c Hc). f_equal. lia. }
    assert (Hhead : Forall (λ c, c.2 = Z.of_nat n + 1) (f 0%nat x)).
    { apply Forall_forall. intros c Hc. rewrite (Hf 0%nat x c Hc). f_equal. lia. }
    split.
    + rewrite fmap_app. apply StronglySorted_app. split_and!; [| |done].
      * intros a b Ha Hb. apply list_elem_of_fmap in Ha as (ca & -> & Ha).
        apply list_elem_of_fmap in Hb as (cb & -> & Hb).
        eapply Forall_forall in Hhead; [|done]. eapply Forall_forall in IHb; [|done].
        simpl in IHb. lia.
      * clear -Hhead. induction Hhead as [|c l' Hc Hall IH']; simpl; [constructor|].
        constructor; [done|].
        apply Forall_fmap, Forall_forall. intros c' Hc'.
        eapply Forall_forall in Hall; [|done]. simpl. lia.
    + apply Forall_app. split.
      * eapply Forall_impl; [done|]. simpl. intros c ->. lia.
      * eapply Forall_impl; [done|]. simpl. intros c ?. lia.
Qed.

Lemma extract_return_inv (fs : FileSystem) file_path chunks :
  extract_text_from_pdf str fs file_path = Return chunks →
  ∃ doc, fs !! file_path = Some (Readable doc) ∧ is_pdf doc = true ∧
         chunks = all_chunks doc ∧ chunks ≠ [].
Proof.
  unfold extract_text_from_pdf, extract_body.
  destruct (fs !! file_path) as [[doc|]|]; [|done|done].
  destruct (is_pdf doc) eqn:Hpdf; simpl; [|done].
  destruct (all_chunks doc) as [|c0 cs] eqn:Hall; [done|].
  intros [= <-]. by exists doc.
Qed.

(** What [extract_text_from_pdf] returns: the file is a readable PDF, the
    list is not empty, every chunk has at least ten words and is its own
    [strip], its page number is between 1 and the number of pages, and
    the chunks come in page order. *)
Theorem extract_text_from_pdf_chunks (fs : FileSystem) file_path chunks :
  extract_text_from_pdf str fs file_path = Return chunks →
  ∃ doc, fs !! file_path = Some (Readable doc) ∧ is_pdf doc = true ∧
    chunks ≠ [] ∧
    Forall (λ c, (10 ≤ length (PyStr.split c.1))%nat ∧ PyStr.strip c.1 = c.1 ∧
                 1 ≤ c.2 ≤ Z.of_nat (length (pages doc))) chunks ∧
    StronglySorted Z.le chunks.*2.
Proof.
  intros (doc & Hfs & Hpdf & -> & Hne)%extract_return_inv.
  exists doc. split_and!; try done.
  - unfold all_chunks.
    set (f := λ page_num page, match page with
                               | Ok text => page_chunks page_num text
                               | Raise _ => []
                               end).
    assert (Hf : ∀ i x c, c ∈ f i x → c.2 = Z.of_nat (0 + i) + 1).
    { intros i [text|e] c Hc; [|by apply elem_of_nil in Hc].
      by apply page_chunks_spec in Hc as (_ & _ & ->). }
    destruct (join_imap_pages f 0 (pages doc) Hf) as [_ Hb].
    apply Forall_forall. intros c Hc.
    eapply Forall_forall in Hb; [|done]. simpl in Hb.
    apply list_elem_of_join in Hc as (block & Hc & Hblock).
    apply elem_of_lookup_imap in Hblock as (i & [text|e] & -> & _);
      [|by apply elem_of_nil in Hc].
    apply page_chunks_spec in Hc as (Hw & Hs & _). split_and!; try done; lia.
  - unfold all_chunks.
    eapply (join_imap_pages _ 0). intros i [text|e] c Hc; [|by apply elem_of_nil in Hc].
    by apply page_chunks_spec in Hc as (_ & _ & ->).
Qed.

(** A page that raises contributes what a page without text does. *)
Lemma failing_page_is_skipped (before after : list (result string)) (e : exn) is_pdf :
  all_chunks (mkPdf is_pdf (before ++ Raise e :: after))
  = all_chunks (mkPdf is_pdf (before ++ Ok "" :: after)).
Proof.
  unfold all_chunks. simpl. rewrite !imap_app, !imap_cons. done.
Qed.

(** The errors of [extract_text_from_pdf]: a missing file raises
    [FileNotFoundError]; every other failure (the file does not open, it
    is not a PDF, no chunk was found) raises a [ValueError] whose message
    starts with "Error processing PDF: "; a page that raises does not
    fail the document, it counts as a page without text; and whenever the
    readable PDF yields a chunk the call returns. *)
Theorem extract_text_from_pdf_errors (fs : FileSystem) file_path :
  (fs !! file_path = None →
     extract_text_from_pdf str fs file_path
       = Throw (FileNotFoundError ("PDF file not found: " +:+ file_path))) ∧
  (∀ e, is_Some (fs !! file_path) →
     extract_text_from_pdf str fs file_path = Throw e →
     ∃ cause, e = Builtin (ValueError ("Error processing PDF: " +:+ str cause))) ∧
  (∀ doc, fs !! file_path = Some (Readable doc) → is_pdf doc = true →
     all_chunks doc ≠ [] →
     extract_text_from_pdf str fs file_path = Return (all_chunks doc)) ∧
  (∀ before after e flag,
     fs !! file_path = Some (Readable (mkPdf flag (before ++ Raise e :: after))) →
     extract_text_from_pdf str fs file_path
     = extract_text_from_pdf str (<[file_path := Readable (mkPdf flag (before ++ Ok "" :: after))]> fs)
                             file_path).
Proof.
  unfold extract_text_from_pdf. split_and!.
  - by intros ->.
  - intros e [f ->]. destruct (extract_body f); [done|]. intros [= <-]. eauto.
  - intros doc -> Hpdf Hne. unfold extract_body. rewrite Hpdf. simpl.
    by destruct (all_chunks doc).
  - intros before after e flag ->. unfold FileSystem in *. rewrite lookup_insert_eq.
    unfold extract_body. simpl. by rewrite failing_page_is_skipped.
Qed.
End PdfFacts.

Section IngestionExtras.
Context `{G : Gensim}.
Context (str : exception → string).
Import PdfProcessor.

(** Ingesting a new [doc_id] keeps the invariant. *)
Lemma add_document_fresh_wf doc_id chunks filename (w w' : World) :
  store_wf (store w) →
  metadata (store w) !! doc_id = None →
  add_document doc_id chunks filename w = (w', Ok ()) →
  store_wf (store w').
Proof.
  intros [[Hlen Hrange] Hreg] Hfresh Hadd.
  destruct (add_document_cases doc_id chunks filename w)
    as (w1 & r & Heq & Hmd & _ & _ & _ & _ & _ & _ & Hr).
  rewrite Hadd in Heq. injection Heq as <- <-.
  destruct Hr as (m & _ & _ & (es & Hes & _ & Hix) & Hids & _).
  apply embed_batch_length in Hes. rewrite length_fmap in Hes.
  assert (Hnotin : doc_id ∉ doc_ids (store w)).
  { intros Hin. apply Hreg in Hin as [? ?]. congruence. }
  split; [split|].
  - rewrite Hix, Hids, !length_app, length_replicate. lia.
  - intros id cs Hl p. rewrite Hmd in Hl. unfold _get_doc_start_idx. rewrite Hids.
    destruct (decide (id = doc_id)) as [->|Hne].
    + rewrite lookup_insert_eq in Hl. injection Hl as <-.
      destruct chunks as [|c chunks].
      * simpl. rewrite app_nil_r, start_idx_from_absent by done.
        split; [|lia]. intros Hp. exfalso. apply Hnotin. by eapply list_elem_of_lookup_2.
      * simpl. rewrite start_idx_from_first by done. simpl. split.
        -- intros Hp. apply lookup_app_Some in Hp as [Hp|[Hge Hp]].
           { exfalso. apply Hnotin. by eapply list_elem_of_lookup_2. }
           apply (lookup_replicate (S (length chunks))) in Hp as [_ Hlt]. lia.
        -- intros [Hge Hlt]. rewrite lookup_app_r by lia.
           apply (lookup_replicate (S (length chunks))). split; [done|lia].
    + rewrite lookup_insert_ne in Hl by done. specialize (Hrange _ _ Hl p).
      assert (Hp : (doc_ids (store w) ++ replicate (length chunks) doc_id) !! p = Some id
                   ↔ doc_ids (store w) !! p = Some id).
      { split.
        - intros Hp. apply lookup_app_Some in Hp as [Hp|[_ Hp]]; [done|].
          apply lookup_replicate in Hp as [? _]. congruence.
        - intros Hp. by apply lookup_app_l_Some. }
      rewrite Hp, Hrange. unfold _get_doc_start_idx.
      destruct (decide (id ∈ doc_ids (store w))) as [Hin|Hnin].
      * apply list_elem_of_split_l in Hin as (l1 & l2 & Heq & Hl1).
        rewrite Heq, <-app_assoc. simpl. by rewrite !start_idx_from_first.
      * rewrite (start_idx_from_absent (doc_ids (store w))) by done.
        rewrite start_idx_from_absent; [done|].
        intros [Hin|Hin]%elem_of_app; [done|].
        apply elem_of_replicate in Hin as [? _]. done.
  - intros id Hin. rewrite Hmd. rewrite Hids in Hin.
    apply elem_of_app in Hin as [Hin|Hin].
    + destruct (decide (id = doc_id)) as [->|Hne]; [by rewrite lookup_insert_eq|].
      rewrite lookup_insert_ne by done. by apply Hreg.
    + apply elem_of_replicate in Hin as [-> _]. by rewrite lookup_insert_eq.
Qed.

(** The invariant of the data model is inductive, not only true after
    calls made on an empty store: on any store that satisfies it, calls of
    [add_document] that return, for pairwise distinct ids that are not
    registered yet, lead to a store that satisfies it. *)
Theorem add_all_preserves_invariant (calls : list call) (w w' : World) :
  store_wf (store w) →
  NoDup calls.*1.*1 →
  (∀ doc_id, doc_id ∈ calls.*1.*1 → metadata (store w) !! doc_id = None) →
  add_all calls w = (w', Ok ()) →
  store_wf (store w').
Proof.
  revert w. induction calls as [|[[doc_id chunks] filename] calls IH];
    intros w Hwf Hnd Hfresh Hrun.
  - by injection Hrun as <-.
  - simpl in *. apply NoDup_cons in Hnd as [Hnotin Hnd].
    unfold mbind, M_bind in Hrun.
    destruct (add_document doc_id chunks filename w) as [w1 [[]|x]] eqn:Hadd; [|done].
    apply (IH w1); [|done| |done].
    + eapply add_document_fresh_wf; [done| |done]. apply Hfresh. left.
    + intros id Hid.
      destruct (add_document_other_id id doc_id chunks filename w) as [Hmd _].
      { intros ->. done. }
      rewrite Hadd in Hmd. simpl in Hmd. rewrite Hmd. apply Hfresh. by right.
Qed.

(** What [process_pdf] does: when it returns, it returns the id drawn,
    registered with the base name of the path and with the chunks
    extracted, of which there is at least one, tagged at the end of the
    tag sequence; when it raises, it raises a [ValueError] whose message
    starts with "Failed to process PDF: ", the index and the tags are
    untouched, and if the failure was in the extraction so are the whole
    store and the disk. *)
Theorem process_pdf_outcome (fs : FileSystem) uuid4 file_path (w w' : World) o :
  process_pdf str fs uuid4 file_path w = (w', o) →
  match o with
  | Return doc_id =>
      doc_id = uuid4 ∧
      exists_ (store w') doc_id = true ∧
      get_filename (store w') doc_id = Some (PyStr.basename file_path) ∧
      ∃ chunks, extract_text_from_pdf str fs file_path = Return chunks ∧
                chunks ≠ [] ∧
                metadata (store w') !! doc_id = Some chunks ∧
                doc_ids (store w') = doc_ids (store w) ++ replicate (length chunks) doc_id
  | Throw e =>
      (∃ cause, e = Builtin (ValueError ("Failed to process PDF: " +:+ str cause))) ∧
      ((∃ e', extract_text_from_pdf str fs file_path = Throw e') → w' = w) ∧
      index (store w') = index (store w) ∧ doc_ids (store w') = doc_ids (store w)
  end.
Proof.
  unfold process_pdf.
  destruct (extract_text_from_pdf str fs file_path) as [chunks|e] eqn:Hex.
  - destruct (add_document_cases uuid4 chunks (PyStr.basename file_path) w)
      as (w1 & r & Heq & Hmd & Hfn & _ & _ & _ & _ & _ & Hr).
    rewrite Heq. destruct r as [[]|x]; intros [= <- <-].
    + destruct Hr as (m & _ & _ & _ & Hids & _).
      unfold exists_, get_filename. rewrite Hmd, Hfn, !lookup_insert_eq.
      split_and!; try done.
      exists chunks. split_and!; try done.
      by apply extract_return_inv in Hex as (? & _ & _ & _ & ?).
    + destruct Hr as (_ & Hix & Hids & _). split_and!; eauto.
      intros [e' ?]. done.
  - intros [= <- <-]. split_and!; eauto.
Qed.

(** Uploads that return, and uploads that fail in the extraction, keep
    the invariant of the data model, as long as the ids drawn are pairwise
    distinct and new.  (An upload that fails inside [add_document] leaves
    a registered document without tags.) *)
Theorem process_all_keeps_invariant (fs : FileSystem) (uploads : list (string * string))
    (w : World) :
  store_wf (store w) →
  NoDup uploads.*1 →
  (∀ uuid4, uuid4 ∈ uploads.*1 → metadata (store w) !! uuid4 = None) →
  ingested_or_rejected str fs uploads w →
  store_wf (store (process_all str fs uploads w)).
Proof.
  revert w. induction uploads as [|[uuid4 file_path] uploads IH]; intros w Hwf Hnd Hfresh Hruns.
  - done.
  - simpl in *. apply NoDup_cons in Hnd as [Hnotin Hnd]. destruct Hruns as [Hrun Hruns].
    apply IH; [|done| |done].
    + revert Hrun. unfold process_pdf.
      destruct (extract_text_from_pdf str fs file_path) as [chunks|e]; [|done].
      destruct (add_document uuid4 chunks (PyStr.basename file_path) w) as [w1 [[]|x]] eqn:Hadd;
        simpl.
      * intros _. eapply add_document_fresh_wf; [done| |done]. apply Hfresh. left.
      * by intros [? ?].
    + intros u Hu.
      assert (Hne : uuid4 ≠ u) by (by intros ->).
      unfold process_pdf.
      destruct (extract_text_from_pdf str fs file_path) as [chunks|e];
        [|simpl; apply Hfresh; by right].
      destruct (add_document_other_id u uuid4 chunks (PyStr.basename file_path) w) as [Hmd _];
        [done|].
      destruct (add_document uuid4 chunks (PyStr.basename file_path) w) as [w1 [[]|x]];
        simpl in *; rewrite Hmd; apply Hfresh; by right.
Qed.
End IngestionExtras.

Section EndpointExtras.
Context `{G : Gensim} `{F : Faiss}.
Context (str : exception → string).
Import Main.

(** The five retrieval endpoints: an unknown document is answered 404
    before the model is touched; an answer is produced only from the
    chunks [search] returned, between 1 and [k] of them, read at positions
    of the document and with distinct texts; a registered document with
    no model loaded is answered 500. *)
Theorem retrieve_outcome query k nothing_found (agent : Agent)
    (s : FAISSVectorStore) doc_id :
  0 < k →
  (exists_ s doc_id = false →
     retrieve query k nothing_found agent s doc_id
       = Throw (HTTPException 404 "Document not found")) ∧
  (∀ answer, retrieve query k nothing_found agent s doc_id = Return answer →
     ∃ chunks, search s query doc_id k = Ok chunks ∧ agent chunks = Return answer ∧
               (1 ≤ length chunks)%nat ∧ Z.of_nat (length chunks) ≤ k ∧
               NoDup chunks.*1 ∧
               ∀ r, r ∈ chunks → ∃ p : nat, result_at s doc_id p r) ∧
  (exists_ s doc_id = true → model (embeddings s) = None →
     status (retrieve query k nothing_found agent s doc_id) = 500).
Proof.
  intros Hk. unfold retrieve. split_and!.
  - by intros ->.
  - intros answer. destruct (exists_ s doc_id) eqn:Hex; simpl; [|done].
    destruct (search s query doc_id k) as [chunks|x] eqn:Hrun; [|done].
    destruct chunks as [|c chunks]; [done|]. intros Hagent.
    exists (c :: chunks). split_and!; try done.
    + simpl. lia.
    + apply search_known in Hrun as [[_ ?]|(qe & _ & _ & _ & Hrun)]; [done|].
      apply search_loop_spec in Hrun as (ps & new & -> & _ & _ & _ & Hlen & _);
        [|done|constructor]. by apply Hlen.
    + apply search_known in Hrun as [[_ ?]|(qe & _ & _ & _ & Hrun)]; [done|].
      by apply search_loop_spec in Hrun as (ps & new & -> & _ & _ & Hnd & _);
        [|done|constructor].
    + apply search_known in Hrun as [[_ ?]|(qe & _ & _ & _ & Hrun)]; [done|].
      apply search_loop_spec in Hrun as (ps & new & -> & _ & Hall & _);
        [|done|constructor].
      intros r Hr. simpl in *. apply list_elem_of_lookup in Hr as [i Hi].
      destruct (Forall2_lookup_r _ _ _ _ _ Hall Hi) as (p & _ & Hp). eauto.
  - intros Hex Hm. rewrite Hex. simpl. unfold search. rewrite Hex. simpl.
    unfold embed. by rewrite Hm.
Qed.

(** The second [search] of [answer_query], with the empty query, never
    finds what the first did not: the endpoint answers exactly as the
    other five do, with the question as the query and [k = 10] (when the
    index holds no more vectors than there are tags). *)
Theorem answer_query_fallback_is_dead (answer : string → Agent) (s : FAISSVectorStore)
    doc_id question :
  (length (index s) ≤ length (doc_ids s))%nat →
  answer_query answer s doc_id question
  = retrieve question 10 "Could not find relevant content for this question."
             (answer question) s doc_id.
Proof.
  intros Hlen. unfold answer_query, retrieve.
  destruct (negb (exists_ s doc_id)); [done|].
  destruct (search s question doc_id 10) as [[|c chunks]|x] eqn:Hrun; [|done|done].
  by rewrite (search_empty_any_query s question "" doc_id 10 5 Hlen Hrun).
Qed.

(** [get_pdf] raises its 404 inside the [try] whose handler turns every
    exception into a 500: it never answers 404.  It answers 200 exactly
    when the file exists, and for an unknown [doc_id] it looks for
    [uploads/None]. *)
Theorem get_pdf_never_404 (s : FAISSVectorStore) (uploads : Uploads) doc_id :
  status (get_pdf str s uploads doc_id) ≠ 404 ∧
  (status (get_pdf str s uploads doc_id) = 200 ↔
     "uploads/" +:+ format_optional (get_filename s doc_id) ∈ uploads) ∧
  (get_filename s doc_id = None → "uploads/None" ∉ uploads →
     status (get_pdf str s uploads doc_id) = 500).
Proof.
  unfold get_pdf. split_and!.
  - by case_bool_decide.
  - case_bool_decide; simpl; split; done.
  - intros -> Hno. simpl. by rewrite bool_decide_eq_false_2.
Qed.
End EndpointExtras.

Section CleanFacts.
Import PyStr.

Lemma split_chars_words (l : list Ascii.ascii) : Forall is_word (split_chars l).
Proof.
  induction l as [|c l IH]; simpl; [constructor|].
  destruct (isspace c) eqn:Hc; [done|].
  destruct l as [|c' l']; [repeat constructor; done|].
  destruct (isspace c') eqn:Hc'.
  - constructor; [|done]. split; [done|]. by repeat constructor.
  - destruct (split_chars (c' :: l')) as [|w ws]; [repeat constructor; done|].
    apply Forall_cons in IH as [[Hne Hw] Hws]. constructor; [|done].
    split; [done|]. by constructor.
Qed.

Lemma split_chars_word_app (w rest : list Ascii.ascii) :
  is_word w →
  (rest = [] ∨ ∃ c r, rest = c :: r ∧ isspace c = true) →
  split_chars (w ++ rest) = w :: split_chars rest.
Proof.
  intros [Hne Hw] Hrest. induction w as [|c w IH]; [done|].
  apply Forall_cons in Hw as [Hc Hw]. simpl. rewrite Hc.
  destruct w as [|c' w'].
  - simpl. destruct Hrest as [->|(x & r & -> & Hx)]; [done|]. by rewrite Hx.
  - apply Forall_cons in Hw as [Hc' Hw']. simpl in *. rewrite Hc'.
    rewrite Hc' in IH. rewrite IH; [done|done|by constructor].
Qed.

Lemma list_ascii_of_string_app (s1 s2 : string) :
  String.list_ascii_of_string (s1 +:+ s2)
  = String.list_ascii_of_string s1 ++ String.list_ascii_of_string s2.
Proof. induction s1 as [|c s1 IH]; simpl; [done|]. by rewrite IH. Qed.

Lemma join_as_chars (sep : string) (l : list (list Ascii.ascii)) :
  String.list_ascii_of_string (join sep (String.string_of_list_ascii <$> l))
  = join_chars (String.list_ascii_of_string sep) l.
Proof.
  induction l as [|w l IH]; [done|].
  destruct l as [|w' l'].
  - simpl. apply String.list_ascii_of_string_of_list_ascii.
  - change (join sep (String.string_of_list_ascii <$> w :: w' :: l'))
      with (String.string_of_list_ascii w +:+ sep +:+
            join sep (String.string_of_list_ascii <$> w' :: l')).
    rewrite !list_ascii_of_string_app, IH, String.list_ascii_of_string_of_list_ascii.
    done.
Qed.

Lemma split_join_words (ws : list (list Ascii.ascii)) :
  Forall is_word ws → split_chars (join_chars [space] ws) = ws.
Proof.
  induction 1 as [|w ws Hw Hws IH]; [done|].
  destruct ws as [|w' ws'].
  - simpl. rewrite <-(app_nil_r w) at 1. rewrite split_chars_word_app; [done|done|by left].
  - change (join_chars [space] (w :: w' :: ws'))
      with (w ++ space :: join_chars [space] (w' :: ws')).
    rewrite split_chars_word_app; [|done|right; by eexists _, _].
    change (split_chars (space :: ?l)) with (split_chars l). by rewrite IH.
Qed.

Lemma clean_response_fixed (text : string) :
  Agents.clean_response (Agents.clean_response text) = Agents.clean_response text ∧
  PyStr.split (Agents.clean_response text) = PyStr.split text.
Proof.
  assert (Hsplit : split (Agents.clean_response text) = split text).
  { unfold Agents.clean_response, split.
    rewrite join_as_chars. simpl.
    change [Ascii.Ascii false false false false false true false false] with [space].
    rewrite split_join_words; [done|]. apply split_chars_words. }
  split; [|done]. unfold Agents.clean_response at 1. by rewrite Hsplit.
Qed.

(** The characters of a cleaned text: no whitespace but the space. *)
Lemma join_chars_elem c ws :
  c ∈ join_chars [space] ws → c = space ∨ ∃ w, w ∈ ws ∧ c ∈ w.
Proof.
  induction ws as [|w ws IH]; [by intros ?%elem_of_nil|].
  destruct ws as [|w' ws'].
  - simpl. intros Hc. right. exists w. split; [left|done].
  - change (join_chars [space] (w :: w' :: ws'))
      with (w ++ space :: join_chars [space] (w' :: ws')).
    rewrite elem_of_app, elem_of_cons. intros [Hc|[->|Hc]].
    + right. exists w. split; [left|done].
    + by left.
    + destruct (IH Hc) as [->|(x & Hx & Hcx)]; [by left|].
      right. exists x. split; [by right|done].
Qed.

Lemma clean_response_only_spaces (text : string) (c : Ascii.ascii) :
  c ∈ String.list_ascii_of_string (Agents.clean_response text) →
  isspace c = true → c = space.
Proof.
  unfold Agents.clean_response, split. rewrite join_as_chars. simpl.
  change [Ascii.Ascii false false false false false true false false] with [space].
  intros Hc Hsp. apply join_chars_elem in Hc as [->|(w & Hw & Hc)]; [done|].
  pose proof (split_chars_words (String.list_ascii_of_string text)) as Hall.
  eapply Forall_forall in Hall as [_ Hall]; [|done].
  eapply Forall_forall in Hall; [|done]. congruence.
Qed.

(** [clean_response] gives a normal form: cleaning twice is cleaning
    once, the words are those of the text, and the only whitespace left
    is the space. *)
Theorem clean_response_normal_form (text : string) :
  Agents.clean_response (Agents.clean_response text) = Agents.clean_response text ∧
  split (Agents.clean_response text) = split text ∧
  ∀ c, c ∈ String.list_ascii_of_string (Agents.clean_response text) →
       isspace c = true → c = space.
Proof.
  destruct (clean_response_fixed text) as [H1 H2]. split_and!; [done|done|].
  apply clean_response_only_spaces.
Qed.
End CleanFacts.

(** * The further statements on the concrete run *)

Section MoreRuns.
#[local] Existing Instance Stub.gensim.
#[local] Existing Instance Stub.faiss.

Lemma demo_empty_wf : store_wf (store Demo.w0).
Proof.
  split; [split|].
  - reflexivity.
  - intros doc_id chunks Hl.
    change (metadata (store Demo.w0)) with (∅ : gmap string (list (string * Z))) in Hl.
    by rewrite lookup_empty in Hl.
  - intros doc_id Hin. by apply elem_of_nil in Hin.
Qed.

Lemma demo_fresh : ∀ doc_id, doc_id ∈ Demo.calls.*1.*1 → metadata (store Demo.w0) !! doc_id = None.
Proof. intros doc_id _. reflexivity. Qed.

Lemma demo_wf : store_wf (store Demo.w).
Proof.
  apply (add_document_fresh_wf "B" [("x", 1)] "b.pdf"
           (run_adds (take 1 Demo.calls) Demo.w0) Demo.w);
    [|vm_compute; reflexivity|vm_compute; reflexivity].
  apply (add_document_fresh_wf "A" [("x x y", 1); ("y z", 2); ("x x y", 3)] "a.pdf"
           Demo.w0 (run_adds (take 1 Demo.calls) Demo.w0));
    [apply demo_empty_wf|reflexivity|vm_compute; reflexivity].
Qed.

Lemma search_nonpositive_k_witness :
  search (store Demo.w) "x" "A" (-3) = search (store Demo.w) "x" "A" 1.
Proof. apply search_nonpositive_k. lia. Defined.


Lemma search_empty_iff_witness :
  [("y z", 2); ("x x y", 1)] = [] ↔
    exists_ (store Demo.w) "A" = false ∨
    ∀ p : nat, (p < length (index (store Demo.w)))%nat →
               doc_ids (store Demo.w) !! p ≠ Some "A".
Proof.
  apply (search_empty_iff (store Demo.w) "x" "A" 5).
  - vm_compute. lia.
  - vm_compute. reflexivity.
Defined.

Lemma later_ingestions_witness :
  metadata (store (run_adds [("C", [("z", 1)], "c.pdf")] Demo.w)) !! "A"
    = metadata (store Demo.w) !! "A".
Proof.
  destruct (later_ingestions_preserve [("C", [("z", 1)], "c.pdf")] Demo.w "A") as [H _].
  - apply (bool_decide_unpack _). vm_compute. exact I.
  - exact H.
Defined.

Lemma registry_keys_witness :
  dom (metadata (store Demo.w)) = dom (filenames (store Demo.w)) ∧
  (exists_ (store Demo.w) "A" = true ↔ is_Some (get_filename (store Demo.w) "A")).
Proof.
  destruct (registry_tables_have_the_same_keys Demo.calls Demo.w0) as [Hdom H].
  - reflexivity.
  - split; [exact Hdom|exact (H "A")].
Defined.

Lemma restart_witness : startup (disk Demo.w) = Demo.w.
Proof.
  apply (restart_after_add_document "B" [("x", 1)] "b.pdf"
           (run_adds (take 1 Demo.calls) Demo.w0) Demo.w).
  - apply (reachable_add Demo.w0 "A" [("x x y", 1); ("y z", 2); ("x x y", 3)] "a.pdf");
      [apply reachable_startup|vm_compute; reflexivity].
  - vm_compute. reflexivity.
Defined.

Lemma failed_fit_witness :
  ∃ w' m,
    Demo.failing
      = (w', Raise (RuntimeError "you must first build vocabulary before training the model")) ∧
    embeddings (store w') = embeddings (store Demo.failing.1) ∧
    model (embeddings (store Demo.failing.1)) = Some m ∧
    disk w' = disk Demo.w0 ∧
    model (embeddings (store (run_adds Demo.calls w'))) = Some m ∧
    doc2vec_model (disk (run_adds Demo.calls w')) = doc2vec_model (disk Demo.w0).
Proof.
  apply (failed_fit_disables_training "A" [("x y", 1)] "a.pdf" Demo.w0
           (embeddings (store Demo.failing.1)) empty_disk
           (RuntimeError "you must first build vocabulary before training the model")).
  - reflexivity.
  - vm_compute. reflexivity.
Defined.

Lemma add_document_without_chunks_witness :
  ∃ w', add_document "C" [] "c.pdf" Demo.w
          = (w', Raise (ValueError "not enough values to unpack (expected 2, got 1)")) ∧
        exists_ (store w') "C" = true ∧
        metadata (store w') !! "C" = Some [] ∧
        get_filename (store w') "C" = Some "c.pdf" ∧
        embeddings (store w') = embeddings (store Demo.w) ∧
        index (store w') = index (store Demo.w) ∧
        doc_ids (store w') = doc_ids (store Demo.w) ∧
        disk w' = disk Demo.w.
Proof.
  apply (add_document_without_chunks "C" "c.pdf" Demo.w (Stub.mkModel 2 ["x"; "y"] 3 true)).
  vm_compute. reflexivity.
Defined.

Lemma search_without_tags_witness :
  search (store Demo.untagged) "x" "C" 5 = Raise AssertionError.
Proof.
  apply search_without_tags_raises.
  - vm_compute. reflexivity.
  - eexists. vm_compute. reflexivity.
  - vm_compute. reflexivity.
Defined.

Lemma fit_then_construct_witness :
  Embeddings.__init__ 300 2 20 (fit ["x x"] (mkEmbeddings 300 2 20 None, empty_disk)).1.2
  = (fit ["x x"] (mkEmbeddings 300 2 20 None, empty_disk)).1.
Proof.
  apply (fit_then_construct ["x x"] (mkEmbeddings 300 2 20 None) _ empty_disk _).
  vm_compute. reflexivity.
Defined.

Lemma reingestion_witness :
  ¬ store_inv (store (add_document "A" [("z", 1)] "a2.pdf" Demo.w).1).
Proof.
  apply (reingestion_breaks_invariant "A" [("x x y", 1); ("y z", 2); ("x x y", 3)]
           [("z", 1)] "a2.pdf" Demo.w).
  - apply demo_store_inv.
  - vm_compute. reflexivity.
  - discriminate.
  - vm_compute. reflexivity.
Defined.

Lemma add_all_preserves_witness : store_wf (store Demo.w).
Proof.
  apply (add_all_preserves_invariant Demo.calls Demo.w0 Demo.w).
  - apply demo_empty_wf.
  - apply demo_nodup.
  - apply demo_fresh.
  - apply demo_add_all.
Defined.

Lemma extract_witness :
  ∃ doc, Demo.fs !! "uploads/paper.pdf" = Some (Readable doc) ∧
    PdfProcessor.is_pdf doc = true ∧
    [("x x y y z z a a b b", 3)] ≠ [] ∧
    Forall (λ c : string * Z, (10 ≤ length (PyStr.split c.1))%nat ∧ PyStr.strip c.1 = c.1 ∧
                 1 ≤ c.2 ≤ Z.of_nat (length (PdfProcessor.pages doc)))
           [("x x y y z z a a b b", 3)] ∧
    StronglySorted Z.le [("x x y y z z a a b b", 3)].*2.
Proof.
  apply (extract_text_from_pdf_chunks Demo.str Demo.fs "uploads/paper.pdf").
  vm_compute. reflexivity.
Defined.

Lemma process_pdf_witness :
  exists_ (store Demo.uploaded.1) "id-1" = true ∧
  get_filename (store Demo.uploaded.1) "id-1" = Some "paper.pdf".
Proof.
  pose proof (process_pdf_outcome Demo.str Demo.fs "id-1" "uploads/paper.pdf" Demo.w
                Demo.uploaded.1 (Return "id-1")) as H.
  destruct H as (_ & Hex & Hfn & _).
  - vm_compute. reflexivity.
  - split; [exact Hex|exact Hfn].
Defined.

Lemma process_all_witness :
  store_wf (store (PdfProcessor.process_all Demo.str Demo.fs
                     [("id-1", "uploads/paper.pdf"); ("id-2", "nope.pdf")] Demo.w)).
Proof.
  apply process_all_keeps_invariant.
  - apply demo_wf.
  - apply (bool_decide_unpack _). vm_compute. exact I.
  - intros uuid4 Hin. simpl in Hin.
    apply elem_of_cons in Hin as [->|Hin]; [vm_compute; reflexivity|].
    apply elem_of_cons in Hin as [->|Hin]; [vm_compute; reflexivity|].
    by apply elem_of_nil in Hin.
  - split; [vm_compute; exact I|]. split; [|exact I].
    exists (FileNotFoundError "PDF file not found: nope.pdf"). vm_compute. reflexivity.
Defined.

Lemma retrieve_witness :
  Main.get_summary Demo.counting_agent (store Demo.w) "nope"
  = Throw (HTTPException 404 "Document not found").
Proof.
  unfold Main.get_summary.
  refine (proj1 (retrieve_outcome _ 10 _ Demo.counting_agent (store Demo.w) "nope" _) _).
  - lia.
  - vm_compute. reflexivity.
Defined.

Lemma answer_query_witness :
  Main.answer_query (λ _, Demo.counting_agent) (store Demo.w) "A" "x"
  = Main.retrieve "x" 10 "Could not find relevant content for this question."
                  Demo.counting_agent (store Demo.w) "A".
Proof.
  apply (answer_query_fallback_is_dead (λ _, Demo.counting_agent)).
  vm_compute. lia.
Defined.

End MoreRuns.
